(** * Equal-inclination interference simulator ([yanshe.py])

    A shallow embedding of the class [EqualInclinationInterference]: the
    numerical kernel [_calculate_pattern], the slider callback [update], the
    button callback [reset] and the frame function of [animate].

    Numbers are modelled as mathematical reals ([R]): every Python float of
    the program is read as the real it denotes.  Arrays are lists (a 2-D
    array is a list of rows).  Where a property hangs on rounding, module
    [b64] evaluates the arithmetic of the program in binary64, up to the
    argument of the library sine or cosine. *)

From Stdlib Require Import Floats Uint63.
From Stdlib Require Import Reals List Lra Lia Arith Bool ZArith.
Import ListNotations.
Local Open Scope R_scope.

(** ** The array operations of NumPy the program calls *)

Definition matrix := list (list R).

Module np.

(** [np.arange(0, num)] as floating values. *)
Definition arange (num : nat) : list R := map INR (seq 0 num).

(** [y[-1] = stop] on a 1-D array. *)
Definition set_last (stop : R) (y : list R) : list R :=
  removelast y ++ [stop].

(** [np.linspace(start, stop, num)] with [endpoint=True], following the
    library routine: [div = num - 1], the samples are [arange * step +
    start] (through [y / div * delta] when the step vanishes, through
    [y * delta] when [div <= 0]) and the last sample is overwritten with
    [stop] when [num > 1]. *)
Definition linspace (start stop : R) (num : nat) : list R :=
  let div := (num - 1)%nat in
  let y := arange num in
  let delta := stop - start in
  let y :=
    if (0 <? div)%nat then
      let step := delta / INR div in
      if Req_dec_T step 0
      then map (fun v => v * delta) (map (fun v => v / INR div) y)
      else map (fun v => v * step) y
    else map (fun v => v * delta) y in
  let y := map (fun v => v + start) y in
  if (1 <? num)%nat then set_last stop y else y.

(** [np.meshgrid(x, y)] with the default ['xy'] indexing: both results have
    one row per element of [y] and one column per element of [x]. *)
Definition meshgrid (x y : list R) : matrix * matrix :=
  (map (fun _ => x) y, map (fun yi => map (fun _ => yi) x) y).

(** Elementwise application of a unary and of a binary function. *)
Definition ufunc (f : R -> R) (A : matrix) : matrix := map (map f) A.

Definition zip_with {A B C} (f : A -> B -> C) (l : list A) (m : list B)
  : list C :=
  map (fun p => f (fst p) (snd p)) (combine l m).

Definition ufunc2 (f : R -> R -> R) (A B : matrix) : matrix :=
  zip_with (zip_with f) A B.

(** [np.radians]: degrees to radians. *)
Definition radians (deg : R) : R := deg * (PI / 180).

Definition shape (A : matrix) (rows cols : nat) : Prop :=
  length A = rows /\ Forall (fun r => length r = cols) A.

End np.

(** ** Widgets and the image, as far as the program uses them *)

(** A [matplotlib.widgets.Slider]: its bounds, its initial value and its
    current value.  The program builds its sliders with the default closed
    bounds and without a step. *)
Record Slider := mkSlider {
  valmin : R;
  valmax : R;
  valinit : R;
  val : R
}.

(** [Slider._value_in_bounds]: a value at or below [valmin] becomes
    [valmin], one at or above [valmax] becomes [valmax]. *)
Definition value_in_bounds (lo hi v : R) : R :=
  if Rle_dec v lo then lo
  else if Rle_dec hi v then hi
  else v.

(** [Slider(ax, label, valmin, valmax, valinit=init)]: the constructor
    passes [valinit] through [_value_in_bounds] and stores the result both
    as [valinit] and as the current [val]. *)
Definition new_Slider (lo hi init : R) : Slider :=
  let v := value_in_bounds lo hi init in
  mkSlider lo hi v v.

(** The calls the methods of the object make on its image and its canvas,
    in program order (what the widgets draw on their own is left out). *)
Inductive canvas_call :=
| imshow (data : matrix) (extent : list R)
| set_data (data : matrix)
| set_extent (extent : list R)
| draw_idle.

(** ** The object *)

Record EqualInclinationInterference := mkEII {
  wavelength : R;
  refractive_index : R;
  thickness : R;
  incidence_angle_range : R;
  intensity_max : R;
  resolution : nat;
  slider_wavelength : Slider;
  slider_thickness : Slider;
  slider_refractive : Slider;
  slider_angle : Slider;
  calls : list canvas_call
}.

(** [_calculate_pattern]: the intensity array for the current attributes. *)
Definition _calculate_pattern (self : EqualInclinationInterference) : matrix :=
  let x := np.linspace (- incidence_angle_range self)
             (incidence_angle_range self) (resolution self) in
  let y := np.linspace (- incidence_angle_range self)
             (incidence_angle_range self) (resolution self) in
  let '(X, Y) := np.meshgrid x y in
  let theta :=
    np.ufunc sqrt
      (np.ufunc2 Rplus (np.ufunc (fun v => v ^ 2) X)
                       (np.ufunc (fun v => v ^ 2) Y)) in
  let theta_rad := np.ufunc np.radians theta in
  let delta :=
    np.ufunc (fun v => v / wavelength self)
      (np.ufunc
         (fun v => 4 * PI * refractive_index self * thickness self * v)
         (np.ufunc cos theta_rad)) in
  let intensity :=
    np.ufunc (fun v => intensity_max self * v)
      (np.ufunc (fun v => 1 + v) (np.ufunc cos delta)) in
  intensity.

(** The method as a state transformer: it returns the array and leaves the
    object as it found it (no attribute is assigned in its body). *)
Definition run_calculate_pattern (self : EqualInclinationInterference)
  : matrix * EqualInclinationInterference :=
  (_calculate_pattern self, self).

(** The bounding extent handed to the image. *)
Definition extent_of (a : R) : list R := [- a; a; - a; a].

(** [__init__]: store the six attributes, build the four sliders and show
    the first image.  The callbacks are registered afterwards, so building
    the sliders calls nothing. *)
Definition init (w n d a imax : R) (res : nat)
  : EqualInclinationInterference :=
  let self :=
    mkEII w n d a imax res
      (new_Slider 400 800 w)
      (new_Slider 100 5000 d)
      (new_Slider 1 2 n)
      (new_Slider 5 60 a)
      [] in
  mkEII w n d a imax res
    (slider_wavelength self) (slider_thickness self)
    (slider_refractive self) (slider_angle self)
    [imshow (_calculate_pattern self) (extent_of a)].

(** [update(val)]: copy the four slider values into the attributes,
    recompute the pattern and hand it to the image.  The argument [val] is
    not read. *)
Definition update (self : EqualInclinationInterference)
  : EqualInclinationInterference :=
  let self' :=
    mkEII (val (slider_wavelength self))
      (val (slider_refractive self))
      (val (slider_thickness self))
      (val (slider_angle self))
      (intensity_max self) (resolution self)
      (slider_wavelength self) (slider_thickness self)
      (slider_refractive self) (slider_angle self)
      (calls self) in
  mkEII (wavelength self') (refractive_index self') (thickness self')
    (incidence_angle_range self') (intensity_max self') (resolution self')
    (slider_wavelength self') (slider_thickness self')
    (slider_refractive self') (slider_angle self')
    (calls self' ++
       [set_data (_calculate_pattern self');
        set_extent (extent_of (incidence_angle_range self'));
        draw_idle]).

(** The four interactive parameters, each bound to one slider. *)
Inductive parameter := Wavelength | Thickness | RefractiveIndex | AngleRange.

Definition slider_of (k : parameter) (self : EqualInclinationInterference)
  : Slider :=
  match k with
  | Wavelength => slider_wavelength self
  | Thickness => slider_thickness self
  | RefractiveIndex => slider_refractive self
  | AngleRange => slider_angle self
  end.

Definition attribute_of (k : parameter) (self : EqualInclinationInterference)
  : R :=
  match k with
  | Wavelength => wavelength self
  | Thickness => thickness self
  | RefractiveIndex => refractive_index self
  | AngleRange => incidence_angle_range self
  end.

Definition with_slider (k : parameter) (s : Slider)
  (self : EqualInclinationInterference) : EqualInclinationInterference :=
  mkEII (wavelength self) (refractive_index self) (thickness self)
    (incidence_angle_range self) (intensity_max self) (resolution self)
    (match k with Wavelength => s | _ => slider_wavelength self end)
    (match k with Thickness => s | _ => slider_thickness self end)
    (match k with RefractiveIndex => s | _ => slider_refractive self end)
    (match k with AngleRange => s | _ => slider_angle self end)
    (calls self).

(** [Slider.set_val(v)] on the slider of [k]: store the value as given,
    then run the callback registered with [on_changed], which is [update].
    This is how a parameter is set, by the user or by [animate]. *)
Definition set_val (k : parameter) (v : R)
  (self : EqualInclinationInterference) : EqualInclinationInterference :=
  let s := slider_of k self in
  update (with_slider k (mkSlider (valmin s) (valmax s) (valinit s) v) self).

(** [Slider.reset()]: [set_val(valinit)], unless [val] is [valinit]
    already. *)
Definition slider_reset (k : parameter)
  (self : EqualInclinationInterference) : EqualInclinationInterference :=
  let s := slider_of k self in
  if Req_dec_T (val s) (valinit s) then self
  else set_val k (valinit s) self.

(** [reset(event)]: reset the four sliders, in the order of the source. *)
Definition reset (self : EqualInclinationInterference)
  : EqualInclinationInterference :=
  slider_reset AngleRange
    (slider_reset RefractiveIndex
       (slider_reset Thickness
          (slider_reset Wavelength self))).

(** A user session: slider changes, one after the other. *)
Definition set_all (evs : list (parameter * R))
  (self : EqualInclinationInterference) : EqualInclinationInterference :=
  fold_left (fun s e => set_val (fst e) (snd e) s) evs self.

(** The thickness [update_frame] of [animate] computes for a frame; the
    division raises [ZeroDivisionError] when [frames] is zero. *)
Definition frame_thickness (frames frame : nat) : option R :=
  if (frames =? 0)%nat then None
  else Some (100 + 4900 * (0.5 + 0.5 * sin (INR frame * 2 * PI / INR frames))).

Definition with_thickness (d : R) (self : EqualInclinationInterference)
  : EqualInclinationInterference :=
  mkEII (wavelength self) (refractive_index self) d
    (incidence_angle_range self) (intensity_max self) (resolution self)
    (slider_wavelength self) (slider_thickness self)
    (slider_refractive self) (slider_angle self) (calls self).

(** [update_frame] of [animate]: assign the thickness, then move its slider. *)
Definition update_frame (frames frame : nat)
  (self : EqualInclinationInterference)
  : option EqualInclinationInterference :=
  match frame_thickness frames frame with
  | None => None
  | Some d => Some (set_val Thickness d (with_thickness d self))
  end.

(** ** The reference definition of the field, in the words of the design *)

(** Sample [i] of [res] samples evenly spaced over [[-a, a]]. *)
Definition spec_coord (a : R) (res i : nat) : R :=
  - a + INR i * (2 * a / INR (res - 1)).

(** The intensity law at the grid pair [(x, y)], in degrees. *)
Definition spec_intensity (lam n d imax x y : R) : R :=
  let theta := sqrt (x ^ 2 + y ^ 2) in
  let theta_rad := theta * PI / 180 in
  let delta := 4 * PI * n * d * cos theta_rad / lam in
  imax * (1 + cos delta).

Definition spec_field (lam n d a imax : R) (res : nat) : matrix :=
  map (fun i =>
         map (fun j =>
                spec_intensity lam n d imax
                  (spec_coord a res j) (spec_coord a res i))
             (seq 0 res))
      (seq 0 res).

(** The phase difference and the intensity the program computes for one
    grid pair [(x, y)] (lines 73 to 80 of the source, on one entry). *)
Definition phase_at (self : EqualInclinationInterference) (x y : R) : R :=
  4 * PI * refractive_index self * thickness self *
  cos (np.radians (sqrt (x ^ 2 + y ^ 2))) / wavelength self.

Definition intensity_at (self : EqualInclinationInterference) (x y : R) : R :=
  intensity_max self * (1 + cos (phase_at self x y)).

(** The coordinate samples of one axis: the [x] (and the [y]) of
    [_calculate_pattern]. *)
Definition axis_samples (self : EqualInclinationInterference) : list R :=
  np.linspace (- incidence_angle_range self) (incidence_angle_range self)
    (resolution self).

(** The closed form of the design for the centre of the field. *)
Definition center_closed_form (self : EqualInclinationInterference) : R :=
  intensity_max self *
  (1 + cos (4 * PI * refractive_index self * thickness self /
            wavelength self)).

(** The thickness schedule in the words of the design. *)
Definition spec_thickness (frames frame : nat) : R :=
  100 + 4900 * (0.5 + 0.5 * sin (2 * PI * INR frame / INR frames)).

(** The object of the worked example: wavelength 632.8, index 1, thickness
    1000, unit intensity, the other arguments at their defaults. *)
Definition example_object : EqualInclinationInterference :=
  init 632.8 1 1000 30 1 500.

Definition parameter_eq_dec (k k' : parameter) : {k = k'} + {k <> k'}.
Proof. decide equality. Defined.

(** The attributes agree with the sliders they mirror. *)
Definition synced (self : EqualInclinationInterference) : Prop :=
  forall k : parameter, attribute_of k self = val (slider_of k self).

(** The ranges of the four sliders built by [__init__]. *)
Definition in_slider_ranges (w n d a : R) : Prop :=
  400 <= w <= 800 /\ 1 <= n <= 2 /\ 100 <= d <= 5000 /\ 5 <= a <= 60.

(** What a session keeps of the construction: the attributes mirror the
    sliders, the sliders remember their initial values, and the two
    parameters without a slider are the ones given to [__init__]. *)
Definition session_invariant (w n d a imax : R) (res : nat)
  (self : EqualInclinationInterference) : Prop :=
  synced self /\
  valinit (slider_wavelength self) = w /\
  valinit (slider_refractive self) = n /\
  valinit (slider_thickness self) = d /\
  valinit (slider_angle self) = a /\
  intensity_max self = imax /\
  resolution self = res.

(** What [update] hands to the image for the object it leaves behind. *)
Definition redraw (self : EqualInclinationInterference) : list canvas_call :=
  [set_data (_calculate_pattern self);
   set_extent (extent_of (incidence_angle_range self));
   draw_idle].

Arguments _calculate_pattern : simpl never.

(** ** Binary64 arithmetic *)

Module b64.

(** [np.pi], the double nearest to pi. *)
Definition pi : float := 0x1.921fb54442d18p+1%float.

(** A Python [int] turned into a float (exact for the small values used). *)
Definition of_nat (n : nat) : float :=
  PrimFloat.of_uint63 (Uint63.of_Z (Z.of_nat n)).

(** The real number a finite double stands for. *)
Definition SF2R (x : spec_float) : R :=
  match x with
  | S754_finite s m e =>
      let z := if s then Zneg m else Zpos m in
      if (0 <=? e)%Z then IZR (z * 2 ^ e) else IZR z / IZR (2 ^ (- e))
  | _ => 0
  end.

Definition to_R (f : float) : R := SF2R (Prim2SF f).

Definition arange (num : nat) : list float := map of_nat (seq 0 num).

Definition set_last (stop : float) (y : list float) : list float :=
  removelast y ++ [stop].

(** [np.linspace(start, stop, num)], every operation rounded as binary64
    does; the branches are those of [np.linspace] above. *)
Definition linspace (start stop : float) (num : nat) : list float :=
  let div := (num - 1)%nat in
  let y := arange num in
  let delta := (stop - start)%float in
  let y :=
    if (0 <? div)%nat then
      let step := (delta / of_nat div)%float in
      if PrimFloat.eqb step 0%float
      then map (fun v => (v * delta)%float)
             (map (fun v => (v / of_nat div)%float) y)
      else map (fun v => (v * step)%float) y
    else map (fun v => (v * delta)%float) y in
  let y := map (fun v => (v + start)%float) y in
  if (1 <? num)%nat then set_last stop y else y.

(** Lines 73 and 74 on one sample pair: [np.radians(np.sqrt(x**2 + y**2))],
    where [np.radians] multiplies by the double [pi / 180]. *)
Definition theta_rad (x y : float) : float :=
  (PrimFloat.sqrt (x * x + y * y) * (pi / 180))%float.

(** The argument of the sine on line 112: [frame * 2 * np.pi / frames]. *)
Definition frame_angle (frames frame : nat) : float :=
  (of_nat (frame * 2) * pi / of_nat frames)%float.

(** Line 77 where the angle is 0, so that [np.cos(theta_rad)] is 1. *)
Definition center_phase (lam n d : float) : float :=
  (4 * pi * n * d * 1 / lam)%float.

End b64.

(** The samples of one axis in binary64. *)
Definition axis_samples_b64 (a : float) (res : nat) : list float :=
  b64.linspace (- a)%float a res.

(** The intensity of one sample pair with the angle of lines 73 and 74
    computed in binary64, and the library cosine and what follows it
    computed exactly. *)
Definition intensity_at_b64 (self : EqualInclinationInterference)
  (x y : float) : R :=
  intensity_max self *
  (1 + cos (4 * PI * refractive_index self * thickness self *
            cos (b64.to_R (b64.theta_rad x y)) / wavelength self)).

(** The intensity at angle 0 with the phase of line 77 computed in
    binary64, and the library cosine and what follows it computed exactly. *)
Definition center_intensity_b64 (imax : R) (lam n d : float) : R :=
  imax * (1 + cos (b64.to_R (b64.center_phase lam n d))).

(** The thickness of line 112 with the argument of the sine computed in
    binary64, and the library sine and what follows it computed exactly. *)
Definition frame_thickness_b64 (frames frame : nat) : option R :=
  if (frames =? 0)%nat then None
  else Some (100 + 4900 *
               (0.5 + 0.5 * sin (b64.to_R (b64.frame_angle frames frame)))).

(** The double Python reads for the literal [632.8]. *)
Definition wavelength_632_8 : float := 0x1.3c66666666666p+9%float.

(** ** Sessions *)

(** What can happen to the object once it is built: a slider is moved, the
    reset button is clicked, or [animate] plays one frame. *)
Inductive event :=
| SetVal (k : parameter) (v : R)
| Reset
| Frame (frames frame : nat).

Definition step (e : event) (self : EqualInclinationInterference)
  : option EqualInclinationInterference :=
  match e with
  | SetVal k v => Some (set_val k v self)
  | Reset => Some (reset self)
  | Frame frames frame => update_frame frames frame self
  end.

(** A sequence of events; it stops at the first one that raises. *)
Fixpoint run (evs : list event) (self : EqualInclinationInterference)
  : option EqualInclinationInterference :=
  match evs with
  | [] => Some self
  | e :: evs' =>
      match step e self with
      | None => None
      | Some self' => run evs' self'
      end
  end.

(** The array and the extent the image holds after a list of calls. *)
Definition last_data (cs : list canvas_call) : option matrix :=
  fold_left
    (fun acc c =>
       match c with
       | imshow data _ => Some data
       | set_data data => Some data
       | _ => acc
       end) cs None.

Definition last_extent (cs : list canvas_call) : option (list R) :=
  fold_left
    (fun acc c =>
       match c with
       | imshow _ extent => Some extent
       | set_extent extent => Some extent
       | _ => acc
       end) cs None.

(** The image shows the pattern and the extent of the current attributes. *)
Definition image_current (self : EqualInclinationInterference) : Prop :=
  last_data (calls self) = Some (_calculate_pattern self) /\
  last_extent (calls self) =
    Some (extent_of (incidence_angle_range self)).

(** How many sliders are away from their initial value. *)
Definition moved (s : Slider) : nat :=
  if Req_dec_T (val s) (valinit s) then 0%nat else 1%nat.

Definition moved_sliders (self : EqualInclinationInterference) : nat :=
  (moved (slider_wavelength self) + moved (slider_thickness self) +
   moved (slider_refractive self) + moved (slider_angle self))%nat.

(** A fact about every parameter, stated for each of the four. *)
Ltac at_each_parameter H :=
  pose proof (H Wavelength); pose proof (H Thickness);
  pose proof (H RefractiveIndex); pose proof (H AngleRange).

(** ** Lists and arrays *)

Section ListFacts.

Context {A B C D : Type}.

Lemma zip_with_map (f : B -> C -> D) (g : A -> B) (h : A -> C) (l : list A) :
  np.zip_with f (map g l) (map h l) = map (fun x => f (g x) (h x)) l.
Proof.
  unfold np.zip_with.
  induction l as [|x l IH]; simpl; [reflexivity|].
  now rewrite IH.
Qed.

Lemma map_seq_nth (f : nat -> A) (d : A) (n i : nat) :
  (i < n)%nat -> nth i (map f (seq 0 n)) d = f i.
Proof.
  intros Hi.
  rewrite (nth_indep _ d (f 0%nat)) by now rewrite length_map, length_seq.
  now rewrite (map_nth f), seq_nth.
Qed.

End ListFacts.

Lemma set_last_map_seq (f : nat -> R) (stop : R) (m : nat) :
  np.set_last stop (map f (seq 0 (S m))) = map f (seq 0 m) ++ [stop].
Proof.
  unfold np.set_last.
  rewrite seq_S, map_app. cbn [map].
  now rewrite removelast_last.
Qed.

Lemma radians_eq (deg : R) : np.radians deg = deg * PI / 180.
Proof. unfold np.radians, Rdiv. ring. Qed.

(** ** The sampling grid *)

(** [np.linspace] in closed form: sample [i] is [start + i * step]. *)
Lemma linspace_closed_form (start stop : R) (num : nat) :
  np.linspace start stop num =
  map (fun i => start + INR i * ((stop - start) / INR (num - 1)))
      (seq 0 num).
Proof.
  destruct num as [|[|n]].
  - reflexivity.
  - cbn. f_equal. ring.
  - unfold np.linspace, np.arange.
    replace (S (S n) - 1)%nat with (S n) by lia.
    change (0 <? S n)%nat with true.
    change (1 <? S (S n))%nat with true.
    cbv iota zeta.
    assert (Hd : INR (S n) <> 0) by (apply not_0_INR; lia).
    assert (E : (if Req_dec_T ((stop - start) / INR (S n)) 0
                 then map (fun v => v * (stop - start))
                        (map (fun v => v / INR (S n))
                           (map INR (seq 0 (S (S n)))))
                 else map (fun v => v * ((stop - start) / INR (S n)))
                        (map INR (seq 0 (S (S n))))) =
                map (fun i => INR i * ((stop - start) / INR (S n)))
                    (seq 0 (S (S n)))).
    { destruct (Req_dec_T _ 0) as [_|_]; rewrite !map_map;
        apply map_ext; intros i; field; exact Hd. }
    rewrite E, map_map, set_last_map_seq.
    rewrite (seq_S (S n)), map_app. cbn [map Nat.add].
    f_equal.
    + apply map_ext. intros i. ring.
    + f_equal. field. exact Hd.
Qed.

(** The grid of the pattern is the evenly spaced one of the design. *)
Lemma linspace_spec_coord (a : R) (res : nat) :
  np.linspace (- a) a res = map (spec_coord a res) (seq 0 res).
Proof.
  rewrite linspace_closed_form.
  apply map_ext. intros i. unfold spec_coord.
  replace (a - - a) with (2 * a) by ring. reflexivity.
Qed.

(** The samples of the design start at [-a], end at [a] and are one
    constant step apart. *)
Lemma spec_coord_evenly_spaced (a : R) (m : nat) :
  spec_coord a (S (S m)) 0 = - a /\
  spec_coord a (S (S m)) (S m) = a /\
  forall i : nat,
    spec_coord a (S (S m)) (S i) - spec_coord a (S (S m)) i =
    2 * a / INR (S m).
Proof.
  unfold spec_coord.
  replace (S (S m) - 1)%nat with (S m) by lia.
  assert (INR (S m) <> 0) by (apply not_0_INR; lia).
  repeat split.
  - change (INR 0) with 0. ring.
  - field. assumption.
  - intros i. rewrite (S_INR i). field. assumption.
Qed.

(** [_calculate_pattern] entry by entry. *)
Lemma calculate_pattern_pointwise (self : EqualInclinationInterference) :
  _calculate_pattern self =
  map (fun i =>
         map (fun j =>
                intensity_at self
                  (spec_coord (incidence_angle_range self) (resolution self) j)
                  (spec_coord (incidence_angle_range self) (resolution self) i))
             (seq 0 (resolution self)))
      (seq 0 (resolution self)).
Proof.
  unfold _calculate_pattern, np.meshgrid, np.ufunc, np.ufunc2.
  rewrite linspace_spec_coord.
  set (c := spec_coord (incidence_angle_range self) (resolution self)).
  set (s := seq 0 (resolution self)).
  rewrite !map_map, zip_with_map, map_map.
  apply map_ext. intros i.
  rewrite !map_map, zip_with_map, !map_map.
  apply map_ext. intros j.
  reflexivity.
Qed.

(** C1.  For every parameter tuple the array returned by
    [_calculate_pattern] (computeField) is the reference field: two
    coordinate sequences of [resolution] samples evenly spaced over
    [[-angleRange, angleRange]], [theta = sqrt (x^2 + y^2)] in degrees
    turned into radians, [delta = 4 pi n d cos theta / lambda] and
    [intensityMax * (1 + cos delta)] for every grid pair. *)
Theorem calculate_pattern_is_reference (self : EqualInclinationInterference) :
  _calculate_pattern self =
  spec_field (wavelength self) (refractive_index self) (thickness self)
    (incidence_angle_range self) (intensity_max self) (resolution self).
Proof.
  rewrite calculate_pattern_pointwise. unfold spec_field.
  apply map_ext. intros i. apply map_ext. intros j.
  unfold intensity_at, phase_at, spec_intensity.
  now rewrite radians_eq.
Qed.

(** ** Shape and range of the field *)

(** Entry [(i, j)] of the returned array: row [i] is the [y] sample, column
    [j] the [x] sample. *)
Lemma calculate_pattern_nth (self : EqualInclinationInterference) (i j : nat) :
  (i < resolution self)%nat -> (j < resolution self)%nat ->
  nth j (nth i (_calculate_pattern self) []) 0 =
  intensity_at self
    (spec_coord (incidence_angle_range self) (resolution self) j)
    (spec_coord (incidence_angle_range self) (resolution self) i).
Proof.
  intros Hi Hj.
  rewrite calculate_pattern_pointwise.
  rewrite (map_seq_nth _ [] _ i Hi).
  now rewrite (map_seq_nth _ 0 _ j Hj).
Qed.

Lemma calculate_pattern_shape (self : EqualInclinationInterference) :
  np.shape (_calculate_pattern self) (resolution self) (resolution self).
Proof.
  rewrite calculate_pattern_pointwise. split.
  - now rewrite length_map, length_seq.
  - apply Forall_forall. intros row Hrow.
    apply in_map_iff in Hrow. destruct Hrow as [i [<- _]].
    now rewrite length_map, length_seq.
Qed.

Lemma intensity_at_range (self : EqualInclinationInterference) (x y : R) :
  0 <= intensity_max self ->
  0 <= intensity_at self x y <= 2 * intensity_max self.
Proof.
  intros Hmax. unfold intensity_at.
  match goal with |- context [1 + cos ?t] => pose proof (COS_bound t) as Hc end.
  split; nra.
Qed.

(** C2.  For every valid parameter tuple (a non-negative [intensityMax])
    the array returned by [_calculate_pattern] has [resolution] rows of
    [resolution] entries, and every entry lies in [[0, 2 * intensityMax]]. *)
Theorem calculate_pattern_shape_and_range
  (self : EqualInclinationInterference) :
  0 <= intensity_max self ->
  np.shape (_calculate_pattern self) (resolution self) (resolution self) /\
  Forall (Forall (fun v => 0 <= v <= 2 * intensity_max self))
    (_calculate_pattern self).
Proof.
  intros Hmax. split; [apply calculate_pattern_shape|].
  rewrite calculate_pattern_pointwise.
  apply Forall_forall. intros row Hrow.
  apply in_map_iff in Hrow. destruct Hrow as [i [<- _]].
  apply Forall_forall. intros v Hv.
  apply in_map_iff in Hv. destruct Hv as [j [<- _]].
  now apply intensity_at_range.
Qed.

Lemma calculate_pattern_shape_and_range_witness :
  np.shape (_calculate_pattern (init 632.8 1 1000 30 1 4)) 4 4 /\
  Forall (Forall (fun v => 0 <= v <= 2 * 1))
    (_calculate_pattern (init 632.8 1 1000 30 1 4)).
Proof.
  apply (calculate_pattern_shape_and_range (init 632.8 1 1000 30 1 4)).
  simpl. lra.
Defined.

(** ** Mirror symmetry *)

(** Mirrored samples have the same square. *)
Lemma spec_coord_mirror_sqr (a : R) (res j : nat) :
  (j < res)%nat ->
  spec_coord a res (res - 1 - j) ^ 2 = spec_coord a res j ^ 2.
Proof.
  intros Hj. destruct res as [|[|m]]; [lia| |].
  - replace j with 0%nat by lia. reflexivity.
  - assert (E : spec_coord a (S (S m)) (S (S m) - 1 - j) =
                - spec_coord a (S (S m)) j).
    { unfold spec_coord.
      replace (S (S m) - 1)%nat with (S m) by lia.
      rewrite minus_INR by lia.
      assert (INR (S m) <> 0) by (apply not_0_INR; lia).
      field. assumption. }
    rewrite E. ring.
Qed.

Lemma intensity_at_sqr (self : EqualInclinationInterference) (x y x' y' : R) :
  x' ^ 2 = x ^ 2 -> y' ^ 2 = y ^ 2 ->
  intensity_at self x' y' = intensity_at self x y.
Proof. intros Hx Hy. unfold intensity_at, phase_at. now rewrite Hx, Hy. Qed.

(** In exact arithmetic the field is unchanged by the reflection of the
    columns and, independently, of the rows. *)
Lemma calculate_pattern_mirror_exact
  (self : EqualInclinationInterference) (i j : nat) :
  (i < resolution self)%nat -> (j < resolution self)%nat ->
  nth j (nth i (_calculate_pattern self) []) 0 =
    nth (resolution self - 1 - j) (nth i (_calculate_pattern self) []) 0 /\
  nth j (nth i (_calculate_pattern self) []) 0 =
    nth j (nth (resolution self - 1 - i) (_calculate_pattern self) []) 0.
Proof.
  intros Hi Hj.
  rewrite !calculate_pattern_nth by lia.
  split; symmetry; apply intensity_at_sqr;
    auto using spec_coord_mirror_sqr.
Qed.

(** C3, as the program has it.  The intensity of a sample pair is unchanged
    by [x -> -x] and, independently, by [y -> -y]; and the field is its own
    mirror image at the end samples, which are exactly [-a] and [a]:
    [field[i][0] = field[i][resolution-1]] and
    [field[0][i] = field[resolution-1][i]] for every index in range. *)
Theorem calculate_pattern_mirror_ends
  (self : EqualInclinationInterference) :
  (forall x y : R,
     intensity_at self (- x) y = intensity_at self x y /\
     intensity_at self x (- y) = intensity_at self x y) /\
  (forall i : nat, (i < resolution self)%nat ->
     nth 0 (nth i (_calculate_pattern self) []) 0 =
       nth (resolution self - 1) (nth i (_calculate_pattern self) []) 0 /\
     nth i (nth 0 (_calculate_pattern self) []) 0 =
       nth i (nth (resolution self - 1) (_calculate_pattern self) []) 0).
Proof.
  split.
  - intros x y. split; apply intensity_at_sqr; ring.
  - intros i Hi.
    assert (H0 : (0 < resolution self)%nat) by lia.
    destruct (calculate_pattern_mirror_exact self i 0 Hi H0) as [Hc _].
    destruct (calculate_pattern_mirror_exact self 0 i H0 Hi) as [_ Hr].
    rewrite Nat.sub_0_r in Hc, Hr. split; assumption.
Qed.

Lemma calculate_pattern_mirror_ends_witness :
  intensity_at (init 632.8 1 1000 30 1 500) (- 7) 3 =
    intensity_at (init 632.8 1 1000 30 1 500) 7 3 /\
  nth 0 (nth 2 (_calculate_pattern (init 632.8 1 1000 30 1 500)) []) 0 =
    nth 499 (nth 2 (_calculate_pattern (init 632.8 1 1000 30 1 500)) []) 0 /\
  nth 2 (nth 0 (_calculate_pattern (init 632.8 1 1000 30 1 500)) []) 0 =
    nth 2 (nth 499 (_calculate_pattern (init 632.8 1 1000 30 1 500)) []) 0.
Proof.
  destruct (calculate_pattern_mirror_ends (init 632.8 1 1000 30 1 500))
    as [H1 H2].
  split; [apply (H1 7 3)|].
  apply (H2 2%nat). simpl. lia.
Defined.

(** Eighteen decimals of [PI], from the arctangent series at 1/3 and 1/7. *)
Lemma PI_18_digits : 3.14159265358979323 < PI < 3.14159265358979324.
Proof.
  destruct (PI_2_3_7_ineq 10) as [Hlo Hhi].
  change (S (2 * 10)) with 21%nat in Hlo.
  change (2 * 10)%nat with 20%nat in Hhi.
  unfold tg_alt, PI_2_3_7_tg, Ratan_seq in Hlo, Hhi.
  simpl in Hlo, Hhi.
  split; lra.
Qed.

(** In binary64, with 500 samples over [[-30, 30]], sample 497 is not the
    negative of sample 2. *)
Lemma axis_samples_b64_not_mirrored :
  PrimFloat.eqb (nth 497 (axis_samples_b64 30 500) 0%float)
    (- nth 2 (axis_samples_b64 30 500) 0%float)%float = false.
Proof. vm_compute. reflexivity. Qed.

(** The angles of the entries [(0, 16)] and [(0, 483)] of that grid. *)
Lemma theta_rad_b64_0_16 :
  b64.to_R
    (b64.theta_rad (nth 16 (axis_samples_b64 30 500) 0%float)
       (nth 0 (axis_samples_b64 30 500) 0%float)) =
  6459339799943698 / 9007199254740992.
Proof.
  unfold b64.to_R.
  replace (Prim2SF
             (b64.theta_rad (nth 16 (axis_samples_b64 30 500) 0%float)
                (nth 0 (axis_samples_b64 30 500) 0%float)))
    with (S754_finite false 6459339799943698 (-53))
    by (vm_compute; reflexivity).
  reflexivity.
Qed.

Lemma theta_rad_b64_0_483 :
  b64.to_R
    (b64.theta_rad (nth 483 (axis_samples_b64 30 500) 0%float)
       (nth 0 (axis_samples_b64 30 500) 0%float)) =
  6459339799943697 / 9007199254740992.
Proof.
  unfold b64.to_R.
  replace (Prim2SF
             (b64.theta_rad (nth 483 (axis_samples_b64 30 500) 0%float)
                (nth 0 (axis_samples_b64 30 500) 0%float)))
    with (S754_finite false 6459339799943697 (-53))
    by (vm_compute; reflexivity).
  reflexivity.
Qed.

(** C3 as stated fails in the arithmetic of the program.  With 500 samples
    over [[-30, 30]] the binary64 sample 497 is not the negative of sample
    2; and for wavelength 800, index 1, thickness 100 the mirrored entries
    [(0, 16)] and [(0, 483)] get different angles, hence different
    intensities even with an exact cosine. *)
Lemma mirror_not_exact_in_binary64 :
  PrimFloat.eqb (nth 497 (axis_samples_b64 30 500) 0%float)
    (- nth 2 (axis_samples_b64 30 500) 0%float)%float = false /\
  intensity_at_b64 (init 800 1 100 30 1 500)
    (nth 483 (axis_samples_b64 30 500) 0%float)
    (nth 0 (axis_samples_b64 30 500) 0%float) <
  intensity_at_b64 (init 800 1 100 30 1 500)
    (nth 16 (axis_samples_b64 30 500) 0%float)
    (nth 0 (axis_samples_b64 30 500) 0%float).
Proof.
  split; [exact axis_samples_b64_not_mirrored|].
  unfold intensity_at_b64.
  rewrite theta_rad_b64_0_16, theta_rad_b64_0_483.
  cbn [init wavelength refractive_index thickness intensity_max].
  pose proof PI_18_digits as [Hlo Hhi].
  set (q1 := 6459339799943698 / 9007199254740992).
  set (q2 := 6459339799943697 / 9007199254740992).
  assert (Hq : 0 < q2 < q1 /\ q1 < 1) by (unfold q1, q2; repeat split; lra).
  assert (Hc : cos q1 < cos q2) by (apply cos_decreasing_1; lra).
  assert (H1 : 0 < cos q1) by (apply cos_gt_0; lra).
  pose proof (COS_bound q2) as [_ H2].
  assert (Hp : cos (4 * PI * 1 * 100 * cos q2 / 800) <
               cos (4 * PI * 1 * 100 * cos q1 / 800)).
  { apply cos_decreasing_1; nra. }
  lra.
Qed.

(** ** The centre of the field *)

Lemma intensity_at_origin (self : EqualInclinationInterference) :
  intensity_at self 0 0 = center_closed_form self.
Proof.
  unfold intensity_at, phase_at, center_closed_form.
  replace (0 ^ 2 + 0 ^ 2) with 0 by ring.
  rewrite sqrt_0. unfold np.radians.
  rewrite Rmult_0_l, cos_0, Rmult_1_r. reflexivity.
Qed.

(** With an odd number of samples, three or more, the middle one is 0. *)
Lemma spec_coord_middle (a : R) (k : nat) :
  spec_coord a (2 * k + 3) (S k) = 0.
Proof.
  unfold spec_coord.
  replace (2 * k + 3 - 1)%nat with (2 * S k)%nat by lia.
  rewrite mult_INR. change (INR 2) with 2.
  assert (INR (S k) <> 0) by (apply not_0_INR; lia).
  field. assumption.
Qed.

(** With an even number of samples none of them is 0, unless the range is. *)
Lemma spec_coord_even_nonzero (a : R) (res j : nat) :
  Nat.Even res -> a <> 0 -> (j < res)%nat -> spec_coord a res j <> 0.
Proof.
  intros [m Hm] Ha Hj Hz.
  destruct m as [|m]; [lia|].
  unfold spec_coord in Hz.
  replace (res - 1)%nat with (2 * m + 1)%nat in Hz by lia.
  assert (HD : INR (2 * m + 1) <> 0) by (apply not_0_INR; lia).
  assert (E : a * (INR (2 * j) - INR (2 * m + 1)) = 0).
  { rewrite mult_INR. change (INR 2) with 2.
    replace (a * (2 * INR j - INR (2 * m + 1)))
      with (INR (2 * m + 1) *
            (- a + INR j * (2 * a / INR (2 * m + 1))))
      by (field; exact HD).
    rewrite Hz. ring. }
  apply Rmult_integral in E. destruct E as [E|E]; [contradiction|].
  apply Rminus_diag_uniq in E. apply INR_eq in E. lia.
Qed.

Lemma axis_samples_even_nonzero (self : EqualInclinationInterference) :
  Nat.Even (resolution self) -> incidence_angle_range self <> 0 ->
  Forall (fun x => x <> 0) (axis_samples self).
Proof.
  intros He Ha. unfold axis_samples. rewrite linspace_spec_coord.
  apply Forall_forall. intros x Hx.
  apply in_map_iff in Hx. destruct Hx as [j [<- Hj]].
  apply in_seq in Hj.
  apply spec_coord_even_nonzero; [assumption|assumption|lia].
Qed.

(** C4, as the program has it.  At [x = 0], [y = 0] the angle is 0 and the
    intensity law gives [intensityMax * (1 + cos (4 pi n d / lambda))], for
    every parameter tuple.  The returned array holds that value as its
    middle entry when the resolution is odd and at least 3; with an even
    resolution and a non-zero angle range no sample lies at the centre. *)
Theorem center_intensity (self : EqualInclinationInterference) :
  intensity_at self 0 0 = center_closed_form self /\
  (forall k : nat, resolution self = (2 * k + 3)%nat ->
     nth (S k) (nth (S k) (_calculate_pattern self) []) 0 =
     center_closed_form self) /\
  (Nat.Even (resolution self) -> incidence_angle_range self <> 0 ->
     Forall (fun x => x <> 0) (axis_samples self)).
Proof.
  split; [apply intensity_at_origin|]. split.
  - intros k Hk.
    rewrite calculate_pattern_nth by lia.
    rewrite Hk, spec_coord_middle. apply intensity_at_origin.
  - apply axis_samples_even_nonzero.
Qed.

Lemma center_intensity_witness :
  intensity_at (init 632.8 1 1000 30 1 3) 0 0 =
    center_closed_form (init 632.8 1 1000 30 1 3) /\
  nth 1 (nth 1 (_calculate_pattern (init 632.8 1 1000 30 1 3)) []) 0 =
    center_closed_form (init 632.8 1 1000 30 1 3) /\
  Forall (fun x => x <> 0) (axis_samples (init 632.8 1 1000 30 1 4)).
Proof.
  destruct (center_intensity (init 632.8 1 1000 30 1 3)) as [H1 [H2 _]].
  destruct (center_intensity (init 632.8 1 1000 30 1 4)) as [_ [_ H3]].
  split; [exact H1|]. split.
  - apply (H2 0%nat). reflexivity.
  - apply H3.
    + exists 2%nat. reflexivity.
    + simpl. lra.
Defined.

(** The default object, with its 500 samples per axis, has no sample at 0. *)
Lemma default_axis_misses_center :
  Forall (fun x => x <> 0) (axis_samples (init 632.8 1 1000 30 1 500)).
Proof.
  apply axis_samples_even_nonzero.
  - exists 250%nat. reflexivity.
  - simpl. lra.
Qed.

(** A two-by-two field whose four samples all sit at 60 degrees. *)
Lemma intensity_at_60 (x y : R) :
  x ^ 2 = 1800 -> y ^ 2 = 1800 ->
  intensity_at (init 400 1 100 (30 * sqrt 2) 1 2) x y = 1.
Proof.
  intros Hx Hy. unfold intensity_at, phase_at. rewrite Hx, Hy.
  cbn [init wavelength refractive_index thickness intensity_max].
  replace (1800 + 1800) with (60 * 60) by lra.
  rewrite sqrt_square by lra.
  replace (np.radians 60) with (PI / 3) by (unfold np.radians; field).
  rewrite cos_PI3.
  replace (4 * PI * 1 * 100 * (1 / 2) / 400) with (PI / 2) by field.
  rewrite cos_PI2. ring.
Qed.

Lemma spec_coord_two_sqr (j : nat) :
  (j < 2)%nat -> spec_coord (30 * sqrt 2) 2 j ^ 2 = 1800.
Proof.
  intros Hj.
  assert (H2 : sqrt 2 ^ 2 = 2) by (apply pow2_sqrt; lra).
  assert (E : spec_coord (30 * sqrt 2) 2 j ^ 2 = 900 * sqrt 2 ^ 2).
  { destruct j as [|[|j]]; [| |lia]; unfold spec_coord; simpl; field. }
  rewrite E, H2. lra.
Qed.

Lemma two_by_two_field :
  _calculate_pattern (init 400 1 100 (30 * sqrt 2) 1 2) = [[1; 1]; [1; 1]].
Proof.
  rewrite calculate_pattern_pointwise.
  cbn [init resolution incidence_angle_range seq map].
  rewrite !intensity_at_60 by (apply spec_coord_two_sqr; lia).
  reflexivity.
Qed.

Lemma two_by_two_closed_form :
  center_closed_form (init 400 1 100 (30 * sqrt 2) 1 2) = 0.
Proof.
  unfold center_closed_form.
  cbn [init wavelength refractive_index thickness intensity_max].
  replace (4 * PI * 1 * 100 / 400) with PI by field.
  rewrite cos_PI. ring.
Qed.

(** C4 as stated fails: the default object (500 samples per axis) has no
    sample at [x = 0] or [y = 0], and for wavelength 400, index 1, thickness
    100, angle range [30 * sqrt 2] and resolution 2 every entry of the
    returned array is 1 while the closed form of the centre is 0. *)
Lemma center_closed_form_not_in_field :
  Forall (fun x => x <> 0) (axis_samples (init 632.8 1 1000 30 1 500)) /\
  _calculate_pattern (init 400 1 100 (30 * sqrt 2) 1 2) = [[1; 1]; [1; 1]] /\
  center_closed_form (init 400 1 100 (30 * sqrt 2) 1 2) = 0.
Proof.
  split; [exact default_axis_misses_center|].
  split; [exact two_by_two_field | exact two_by_two_closed_form].
Qed.

(** ** Thickness sweep at the centre *)

Lemma center_closed_form_period (self : EqualInclinationInterference) (d : R) :
  wavelength self <> 0 -> refractive_index self <> 0 ->
  center_closed_form
    (with_thickness (d + wavelength self / (2 * refractive_index self)) self) =
  center_closed_form (with_thickness d self).
Proof.
  intros Hw Hn. unfold center_closed_form, with_thickness.
  cbn [wavelength refractive_index thickness intensity_max].
  replace (4 * PI * refractive_index self *
           (d + wavelength self / (2 * refractive_index self)) /
           wavelength self)
    with (4 * PI * refractive_index self * d / wavelength self + 2 * PI)
    by (field; split; assumption).
  rewrite cos_plus, cos_2PI, sin_2PI. do 2 f_equal. ring.
Qed.

Lemma center_phase_b64_1000 :
  b64.to_R (b64.center_phase wavelength_632_8 1 1000) =
  5589631599263938 / 281474976710656.
Proof.
  unfold b64.to_R.
  replace (Prim2SF (b64.center_phase wavelength_632_8 1 1000))
    with (S754_finite false 5589631599263938 (-48))
    by (vm_compute; reflexivity).
  reflexivity.
Qed.

Lemma center_phase_b64_1316 :
  b64.to_R (b64.center_phase wavelength_632_8 1
              (1000 + wavelength_632_8 / (2 * 1))%float) =
  7358191037271049 / 281474976710656.
Proof.
  unfold b64.to_R.
  replace (Prim2SF (b64.center_phase wavelength_632_8 1
                      (1000 + wavelength_632_8 / (2 * 1))%float))
    with (S754_finite false 7358191037271049 (-48))
    by (vm_compute; reflexivity).
  reflexivity.
Qed.

(** The cosine moves by little over a short step. *)
Lemma cos_near (u e : R) :
  0 <= e <= 1 -> cos u - cos (u + e) <= e * e / 2 + e.
Proof.
  intros He. rewrite cos_plus.
  pose proof (COS_bound u) as Hcu. pose proof (SIN_bound u) as Hsu.
  pose proof (COS_bound e) as Hce.
  assert (Hc : 1 - e * e / 2 <= cos e).
  { destruct (pre_cos_bound e 0) as [H _]; [lra|lra|].
    unfold cos_approx, cos_term in H. simpl in H. lra. }
  assert (Hs : 0 <= sin e <= e).
  { destruct (Req_dec e 0) as [->|Hne].
    - rewrite sin_0. lra.
    - split.
      + apply sin_ge_0; [lra|]. pose proof PI_18_digits. lra.
      + left. apply sin_lt_x. lra. }
  nra.
Qed.

(** With the phase of line 77 computed in binary64 for wavelength 632.8,
    index 1 and thickness 1000, one period more of thickness lowers the
    intensity at the centre, by less than 1e-14. *)
Lemma center_intensity_b64_example :
  0 < center_intensity_b64 1 wavelength_632_8 1 1000 -
      center_intensity_b64 1 wavelength_632_8 1
        (1000 + wavelength_632_8 / (2 * 1))%float < 1e-14.
Proof.
  unfold center_intensity_b64.
  rewrite center_phase_b64_1000, center_phase_b64_1316.
  pose proof PI_18_digits as [Hlo Hhi].
  set (a := 5589631599263938 / 281474976710656).
  set (b := 7358191037271049 / 281474976710656).
  set (u := a - 6 * PI).
  set (e := b - a - 2 * PI).
  assert (Hu : 1 < u < 1.01) by (unfold u, a; split; lra).
  assert (He : 0 < e < 4e-15) by (unfold e, a, b; split; lra).
  replace a with (u + 2 * INR 3 * PI) by (unfold u; simpl; ring).
  replace b with (u + e + 2 * INR 4 * PI) by (unfold u, e; simpl; ring).
  rewrite !cos_period.
  assert (Hdec : cos (u + e) < cos u) by (apply cos_decreasing_1; lra).
  assert (Hnear : cos u - cos (u + e) <= e * e / 2 + e)
    by (apply cos_near; lra).
  split; [lra|]. nra.
Qed.

(** C5, as the program has it.  In exact arithmetic the intensity at the
    centre ([theta = 0]) is periodic in the thickness with period
    [wavelength / (2 * refractiveIndex)], for the intensity law and for the
    middle entry of the field at odd resolution.  In the arithmetic of the
    program the period is kept only up to rounding: for wavelength 632.8,
    index 1 and thickness 1000, with the phase of line 77 in binary64, the
    two intensities differ, by less than 1e-14. *)
Theorem center_periodic_in_thickness :
  (forall (self : EqualInclinationInterference) (d : R),
     wavelength self <> 0 -> refractive_index self <> 0 ->
     intensity_at
       (with_thickness (d + wavelength self / (2 * refractive_index self))
          self) 0 0 =
     intensity_at (with_thickness d self) 0 0 /\
     (forall k : nat, resolution self = (2 * k + 3)%nat ->
        nth (S k) (nth (S k)
          (_calculate_pattern
             (with_thickness
                (d + wavelength self / (2 * refractive_index self)) self))
          []) 0 =
        nth (S k) (nth (S k)
          (_calculate_pattern (with_thickness d self)) []) 0)) /\
  0 < center_intensity_b64 1 wavelength_632_8 1 1000 -
      center_intensity_b64 1 wavelength_632_8 1
        (1000 + wavelength_632_8 / (2 * 1))%float < 1e-14.
Proof.
  split; [|exact center_intensity_b64_example].
  intros self d Hw Hn. split.
  - rewrite !intensity_at_origin. now apply center_closed_form_period.
  - intros k Hk.
    rewrite !calculate_pattern_nth by (cbn; lia).
    cbn [with_thickness resolution incidence_angle_range].
    rewrite Hk, spec_coord_middle, !intensity_at_origin.
    now apply center_closed_form_period.
Qed.

Lemma center_periodic_in_thickness_witness :
  intensity_at
    (with_thickness (1000 + 632.8 / (2 * 1)) (init 632.8 1 1000 30 1 3)) 0 0 =
  intensity_at (with_thickness 1000 (init 632.8 1 1000 30 1 3)) 0 0 /\
  nth 1 (nth 1
    (_calculate_pattern
       (with_thickness (1000 + 632.8 / (2 * 1)) (init 632.8 1 1000 30 1 3)))
    []) 0 =
  nth 1 (nth 1
    (_calculate_pattern (with_thickness 1000 (init 632.8 1 1000 30 1 3)))
    []) 0.
Proof.
  destruct center_periodic_in_thickness as [H _].
  destruct (H (init 632.8 1 1000 30 1 3) 1000)
    as [H1 H2]; [simpl; lra | simpl; lra |].
  split; [exact H1 | apply (H2 0%nat); reflexivity].
Defined.

(** C5 as stated fails in the arithmetic of the program: for wavelength
    632.8, index 1 and thickness 1000, with the phase of line 77 computed
    in binary64, one period more of thickness gives a strictly smaller
    intensity at the centre, even with an exact cosine. *)
Lemma center_period_not_exact_in_binary64 :
  center_intensity_b64 1 wavelength_632_8 1
    (1000 + wavelength_632_8 / (2 * 1))%float <
  center_intensity_b64 1 wavelength_632_8 1 1000.
Proof. pose proof center_intensity_b64_example as [H _]. lra. Qed.

(** ** The animation schedule *)

Lemma frame_thickness_spec (frames frame : nat) :
  frames <> 0%nat ->
  frame_thickness frames frame = Some (spec_thickness frames frame).
Proof.
  intros Hf. unfold frame_thickness, spec_thickness.
  destruct (Nat.eqb_spec frames 0) as [E|_]; [contradiction|].
  replace (INR frame * 2 * PI / INR frames)
    with (2 * PI * INR frame / INR frames) by (unfold Rdiv; ring).
  reflexivity.
Qed.

Lemma spec_thickness_range (frames frame : nat) :
  100 <= spec_thickness frames frame <= 5000.
Proof.
  unfold spec_thickness.
  match goal with |- context [sin ?t] => pose proof (SIN_bound t) as Hs end.
  split; lra.
Qed.

Lemma spec_thickness_frame_0 (frames : nat) : spec_thickness frames 0 = 2550.
Proof.
  unfold spec_thickness. change (INR 0) with 0.
  replace (2 * PI * 0 / INR frames) with 0 by (unfold Rdiv; ring).
  rewrite sin_0. lra.
Qed.

Lemma frame_thickness_b64_range (frames frame : nat) :
  frames <> 0%nat ->
  exists d, frame_thickness_b64 frames frame = Some d /\ 100 <= d <= 5000.
Proof.
  intros Hf. unfold frame_thickness_b64.
  destruct (Nat.eqb_spec frames 0) as [E|_]; [contradiction|].
  eexists. split; [reflexivity|].
  match goal with |- context [sin ?t] => pose proof (SIN_bound t) as Hs end.
  split; lra.
Qed.

Lemma frame_angle_b64_30_0 : b64.to_R (b64.frame_angle 30 0) = 0.
Proof.
  unfold b64.to_R.
  replace (Prim2SF (b64.frame_angle 30 0)) with (S754_zero false)
    by (vm_compute; reflexivity).
  reflexivity.
Qed.

Lemma frame_angle_b64_30_30 :
  b64.to_R (b64.frame_angle 30 30) = 7074237752028439 / 1125899906842624.
Proof.
  unfold b64.to_R.
  replace (Prim2SF (b64.frame_angle 30 30))
    with (S754_finite false 7074237752028439 (-50))
    by (vm_compute; reflexivity).
  reflexivity.
Qed.

(** The binary64 angle of frame 30 of 30 falls just short of a full turn. *)
Lemma sin_frame_angle_b64_30_30 :
  - 2e-15 < sin (b64.to_R (b64.frame_angle 30 30)) < 0.
Proof.
  rewrite frame_angle_b64_30_30.
  pose proof PI_18_digits as [Hlo Hhi].
  set (q := 7074237752028439 / 1125899906842624).
  assert (Hq : 2 * PI - 2e-15 < q < 2 * PI) by (unfold q; split; lra).
  split.
  - replace q with (- (2 * PI - q) + 2 * INR 1 * PI) by (simpl; ring).
    rewrite sin_period, sin_neg.
    assert (sin (2 * PI - q) < 2 * PI - q) by (apply sin_lt_x; lra).
    lra.
  - apply sin_lt_0; lra.
Qed.

Lemma frame_thickness_b64_30_0 : frame_thickness_b64 30 0 = Some 2550.
Proof.
  unfold frame_thickness_b64. cbn [Nat.eqb].
  rewrite frame_angle_b64_30_0, sin_0. f_equal. lra.
Qed.

Lemma frame_thickness_b64_30_30 :
  exists d, frame_thickness_b64 30 30 = Some d /\ 2550 - 1e-11 < d < 2550.
Proof.
  unfold frame_thickness_b64. cbn [Nat.eqb].
  eexists. split; [reflexivity|].
  pose proof sin_frame_angle_b64_30_30 as [H1 H2]. split; lra.
Qed.

(** C7, as the program has it.  For every number of frames other than 0
    and every frame index the thickness set by [update_frame] is the one of
    the schedule [100 + 4900 * (0.5 + 0.5 * sin (2 pi f / frames))] and
    lies in [[100, 5000]], also when the argument of the sine is rounded as
    binary64 does; frame 0 gives 2550; and with 30 frames, frame 30 gives
    the thickness of frame 0 only up to rounding: with the binary64
    argument it is below 2550, by less than 1e-11. *)
Theorem frame_thickness_schedule :
  (forall frames frame : nat, frames <> 0%nat ->
     frame_thickness frames frame = Some (spec_thickness frames frame) /\
     100 <= spec_thickness frames frame <= 5000) /\
  (forall frames : nat, frames <> 0%nat ->
     frame_thickness frames 0 = Some 2550) /\
  (forall frames frame : nat, frames <> 0%nat ->
     exists d, frame_thickness_b64 frames frame = Some d /\
               100 <= d <= 5000) /\
  frame_thickness_b64 30 0 = Some 2550 /\
  (exists d, frame_thickness_b64 30 30 = Some d /\
             2550 - 1e-11 < d < 2550).
Proof.
  split; [|split; [|split; [|split]]].
  - intros frames frame Hf.
    split; [now apply frame_thickness_spec | apply spec_thickness_range].
  - intros frames Hf.
    now rewrite frame_thickness_spec, spec_thickness_frame_0.
  - apply frame_thickness_b64_range.
  - exact frame_thickness_b64_30_0.
  - exact frame_thickness_b64_30_30.
Qed.

Lemma frame_thickness_schedule_witness :
  (frame_thickness 30 7 = Some (spec_thickness 30 7) /\
   100 <= spec_thickness 30 7 <= 5000) /\
  frame_thickness 30 0 = Some 2550 /\
  (exists d, frame_thickness_b64 30 7 = Some d /\ 100 <= d <= 5000).
Proof.
  destruct frame_thickness_schedule as (H1 & H2 & H3 & _).
  split; [apply (H1 30%nat 7%nat); lia|].
  split; [apply (H2 30%nat); lia | apply (H3 30%nat 7%nat); lia].
Defined.

(** C7 as stated fails in the arithmetic of the program: with 30 frames and
    the argument of the sine on line 112 computed in binary64, frame 0 sets
    the thickness to 2550 and frame 30 to less than 2550, even with an
    exact sine. *)
Lemma frame_30_not_frame_0_in_binary64 :
  frame_thickness_b64 30 0 = Some 2550 /\
  frame_thickness_b64 30 30 <> frame_thickness_b64 30 0.
Proof.
  split; [exact frame_thickness_b64_30_0|].
  rewrite frame_thickness_b64_30_0.
  destruct frame_thickness_b64_30_30 as [d [Hd [_ Hlt]]].
  rewrite Hd. intros H. injection H as H. lra.
Qed.

(** ** The worked example *)

(** Six decimals of [PI], from the arctangent series at 1/3 and 1/7. *)
Lemma PI_6_digits : 3.141592 < PI < 3.1416.
Proof.
  destruct (PI_2_3_7_ineq 2) as [Hlo Hhi].
  change (S (2 * 2)) with 5%nat in Hlo. change (2 * 2)%nat with 4%nat in Hhi.
  unfold tg_alt, PI_2_3_7_tg, Ratan_seq in Hlo, Hhi.
  simpl in Hlo, Hhi.
  split; lra.
Qed.

Lemma INR_fact_S (n : nat) : INR (fact (S n)) = INR (S n) * INR (fact n).
Proof. now rewrite fact_simpl, mult_INR. Qed.

(** Partial sums of the cosine series, as polynomials. *)
Lemma cos_approx_4 (a : R) :
  cos_approx a 4 =
  1 - a ^ 2 / 2 + a ^ 4 / 24 - a ^ 6 / 720 + a ^ 8 / 40320.
Proof.
  unfold cos_approx. cbn [sum_f_R0]. unfold cos_term.
  cbn [Nat.mul Nat.add]. rewrite !INR_fact_S. simpl. field.
Qed.

Lemma cos_approx_5 (a : R) :
  cos_approx a 5 =
  1 - a ^ 2 / 2 + a ^ 4 / 24 - a ^ 6 / 720 + a ^ 8 / 40320
  - a ^ 10 / 3628800.
Proof.
  unfold cos_approx. cbn [sum_f_R0]. unfold cos_term.
  cbn [Nat.mul Nat.add]. rewrite !INR_fact_S. simpl. field.
Qed.

Lemma cos_10088_upper : cos 1.0088 < 0.53288.
Proof.
  destruct (pre_cos_bound 1.0088 1) as [_ H]; [lra|lra|].
  change (2 * (1 + 1))%nat with 4%nat in H.
  rewrite cos_approx_4 in H. lra.
Qed.

Lemma cos_100881_lower : 0.53286 < cos 1.00881.
Proof.
  destruct (pre_cos_bound 1.00881 2) as [H _]; [lra|lra|].
  change (2 * 2 + 1)%nat with 5%nat in H.
  rewrite cos_approx_5 in H. lra.
Qed.

Lemma example_phase : phase_at example_object 0 0 = 4 * PI * 1000 / 632.8.
Proof.
  unfold phase_at, example_object.
  cbn [init wavelength refractive_index thickness].
  replace (0 ^ 2 + 0 ^ 2) with 0 by ring.
  rewrite sqrt_0. unfold np.radians.
  rewrite Rmult_0_l, cos_0. unfold Rdiv. ring.
Qed.

Lemma example_phase_bounds :
  19.85835 < phase_at example_object 0 0 < 19.85845.
Proof.
  rewrite example_phase.
  pose proof PI_6_digits as [Hlo Hhi]. split; lra.
Qed.

(** The phase of the example is three full turns past an angle near 1.0088. *)
Lemma example_cos_phase :
  0.53286 < cos (phase_at example_object 0 0) < 0.53288.
Proof.
  rewrite example_phase.
  pose proof PI_6_digits as [Hlo Hhi].
  set (y := 4 * PI * 1000 / 632.8 - 6 * PI).
  assert (Hy : 1.0088 < y < 1.00881) by (unfold y; split; lra).
  replace (4 * PI * 1000 / 632.8) with (y + 2 * INR 3 * PI)
    by (unfold y; simpl; ring).
  rewrite cos_period.
  split.
  - apply Rlt_le_trans with (1 := cos_100881_lower).
    apply cos_decr_1; lra.
  - apply Rle_lt_trans with (2 := cos_10088_upper).
    apply cos_decr_1; lra.
Qed.

Lemma example_intensity_bounds :
  1.53285 < intensity_at example_object 0 0 < 1.53295.
Proof.
  unfold intensity_at.
  pose proof example_cos_phase as [Hlo Hhi].
  replace (intensity_max example_object) with 1 by reflexivity.
  split; lra.
Qed.

(** C9, as the program has it.  With wavelength 632.8, index 1, thickness
    1000 and unit intensity, at [theta = 0] the phase is
    [4 pi 1000 / 632.8], about 19.8584 radians, and the intensity is about
    1.5329 (both within half a unit of the fourth decimal). *)
Theorem example_center_values :
  phase_at example_object 0 0 = 4 * PI * 1000 / 632.8 /\
  19.85835 < phase_at example_object 0 0 < 19.85845 /\
  1.53285 < intensity_at example_object 0 0 < 1.53295.
Proof.
  split; [exact example_phase|].
  split; [exact example_phase_bounds | exact example_intensity_bounds].
Qed.

(** C9 as stated fails: the phase is not 19.8557 to four decimals and the
    intensity is not 1.9825 to four decimals (it is below 1.54). *)
Lemma example_values_not_as_stated :
  ~ (19.85565 <= phase_at example_object 0 0 <= 19.85575) /\
  ~ (1.98245 <= intensity_at example_object 0 0 <= 1.98255) /\
  intensity_at example_object 0 0 < 1.54.
Proof.
  pose proof example_phase_bounds as [Hp _].
  pose proof example_intensity_bounds as [_ Hi].
  repeat split; try lra; intros [H1 H2]; lra.
Qed.

(** ** Determinism of the computation *)

Lemma calculate_pattern_ext (s1 s2 : EqualInclinationInterference) :
  wavelength s1 = wavelength s2 ->
  refractive_index s1 = refractive_index s2 ->
  thickness s1 = thickness s2 ->
  incidence_angle_range s1 = incidence_angle_range s2 ->
  intensity_max s1 = intensity_max s2 ->
  resolution s1 = resolution s2 ->
  _calculate_pattern s1 = _calculate_pattern s2.
Proof.
  intros Hw Hn Hd Ha Hi Hr.
  rewrite !calculate_pattern_pointwise.
  unfold intensity_at, phase_at.
  now rewrite Hw, Hn, Hd, Ha, Hi, Hr.
Qed.

(** C10.  [_calculate_pattern] is deterministic: two objects that agree on
    the six parameters get equal arrays, whatever their sliders and image
    hold, and a call leaves the object, hence the six parameters, as it
    found them. *)
Theorem calculate_pattern_deterministic
  (s1 s2 : EqualInclinationInterference) :
  wavelength s1 = wavelength s2 ->
  refractive_index s1 = refractive_index s2 ->
  thickness s1 = thickness s2 ->
  incidence_angle_range s1 = incidence_angle_range s2 ->
  intensity_max s1 = intensity_max s2 ->
  resolution s1 = resolution s2 ->
  fst (run_calculate_pattern s1) = fst (run_calculate_pattern s2) /\
  snd (run_calculate_pattern s1) = s1 /\
  snd (run_calculate_pattern s2) = s2 /\
  fst (run_calculate_pattern (snd (run_calculate_pattern s1))) =
    fst (run_calculate_pattern s1).
Proof.
  intros Hw Hn Hd Ha Hi Hr. unfold run_calculate_pattern. cbn [fst snd].
  repeat split. now apply calculate_pattern_ext.
Qed.

Lemma calculate_pattern_deterministic_witness :
  fst (run_calculate_pattern (init 632.8 1 1000 30 1 4)) =
    fst (run_calculate_pattern
           (mkEII 632.8 1 1000 30 1 4
              (mkSlider 0 1 0 1) (mkSlider 0 1 0 1)
              (mkSlider 0 1 0 1) (mkSlider 0 1 0 1) [draw_idle])) /\
  snd (run_calculate_pattern (init 632.8 1 1000 30 1 4)) =
    init 632.8 1 1000 30 1 4.
Proof.
  destruct (calculate_pattern_deterministic
              (init 632.8 1 1000 30 1 4)
              (mkEII 632.8 1 1000 30 1 4
                 (mkSlider 0 1 0 1) (mkSlider 0 1 0 1)
                 (mkSlider 0 1 0 1) (mkSlider 0 1 0 1) [draw_idle]))
    as [H1 [H2 _]]; try reflexivity.
  split; [exact H1 | exact H2].
Defined.

(** ** Slider changes *)

Lemma value_in_bounds_inside (lo hi v : R) :
  lo <= v <= hi -> value_in_bounds lo hi v = v.
Proof.
  intros [Hlo Hhi]. unfold value_in_bounds.
  destruct (Rle_dec v lo); [lra|].
  destruct (Rle_dec hi v); lra.
Qed.

Lemma value_in_bounds_below (lo hi v : R) :
  v <= lo -> value_in_bounds lo hi v = lo.
Proof.
  intros H. unfold value_in_bounds. destruct (Rle_dec v lo); [reflexivity|lra].
Qed.

Lemma update_synced (self : EqualInclinationInterference) :
  synced (update self).
Proof. intros k. destruct k; reflexivity. Qed.

Lemma update_calls (self : EqualInclinationInterference) :
  calls (update self) = calls self ++ redraw (update self).
Proof.
  unfold update, redraw. cbn [calls incidence_angle_range].
  reflexivity.
Qed.

Lemma update_fixed (self : EqualInclinationInterference) :
  intensity_max (update self) = intensity_max self /\
  resolution (update self) = resolution self /\
  forall k, slider_of k (update self) = slider_of k self.
Proof. repeat split. Qed.

Lemma set_val_slider (k k' : parameter) (v : R)
  (self : EqualInclinationInterference) :
  val (slider_of k' (set_val k v self)) =
    (if parameter_eq_dec k' k then v else val (slider_of k' self)) /\
  valinit (slider_of k' (set_val k v self)) = valinit (slider_of k' self).
Proof. destruct k, k'; split; reflexivity. Qed.

Lemma set_val_synced (k : parameter) (v : R)
  (self : EqualInclinationInterference) :
  synced (set_val k v self).
Proof. apply update_synced. Qed.

Lemma set_val_attribute (k k' : parameter) (v : R)
  (self : EqualInclinationInterference) :
  attribute_of k' (set_val k v self) =
  if parameter_eq_dec k' k then v else val (slider_of k' self).
Proof.
  rewrite (set_val_synced k v self k'). apply set_val_slider.
Qed.

(** [update_frame] leaves the scheduled thickness in the attribute. *)
Lemma update_frame_thickness (frames frame : nat)
  (self : EqualInclinationInterference) :
  frames <> 0%nat ->
  exists self',
    update_frame frames frame self = Some self' /\
    thickness self' = spec_thickness frames frame.
Proof.
  intros Hf. unfold update_frame.
  rewrite frame_thickness_spec by assumption.
  eexists. split; [reflexivity|].
  change (attribute_of Thickness
            (set_val Thickness (spec_thickness frames frame)
               (with_thickness (spec_thickness frames frame) self)) =
          spec_thickness frames frame).
  rewrite set_val_attribute.
  destruct (parameter_eq_dec Thickness Thickness); [reflexivity|contradiction].
Qed.

Lemma set_val_calls (k : parameter) (v : R)
  (self : EqualInclinationInterference) :
  calls (set_val k v self) = calls self ++ redraw (set_val k v self).
Proof. unfold set_val. now rewrite update_calls. Qed.

Lemma set_val_fixed (k : parameter) (v : R)
  (self : EqualInclinationInterference) :
  intensity_max (set_val k v self) = intensity_max self /\
  resolution (set_val k v self) = resolution self.
Proof. split; reflexivity. Qed.

Lemma init_synced (w n d a imax : R) (res : nat) :
  in_slider_ranges w n d a -> synced (init w n d a imax res).
Proof.
  intros (Hw & Hn & Hd & Ha) k.
  destruct k; cbn; now rewrite value_in_bounds_inside.
Qed.

(** C8, as the program has it.  A change of one slider ([set_val], which
    runs [update]) sets the attribute of that slider to the new value,
    keeps [intensity_max] and [resolution], and recomputes the pattern and
    hands it to the image; the other three attributes are read again from
    their sliders, so that afterwards all four mirror their sliders, and
    they keep their values when the attributes mirrored the sliders
    before. *)
Theorem set_val_effect (k : parameter) (v : R)
  (self : EqualInclinationInterference) :
  attribute_of k (set_val k v self) = v /\
  (forall k' : parameter, k' <> k ->
     attribute_of k' (set_val k v self) = val (slider_of k' self)) /\
  intensity_max (set_val k v self) = intensity_max self /\
  resolution (set_val k v self) = resolution self /\
  calls (set_val k v self) = calls self ++ redraw (set_val k v self) /\
  synced (set_val k v self) /\
  (synced self ->
   forall k' : parameter, k' <> k ->
     attribute_of k' (set_val k v self) = attribute_of k' self).
Proof.
  split; [|split].
  - rewrite set_val_attribute.
    destruct (parameter_eq_dec k k); [reflexivity|contradiction].
  - intros k' Hk. rewrite set_val_attribute.
    destruct (parameter_eq_dec k' k); [contradiction|reflexivity].
  - split; [reflexivity|]. split; [reflexivity|].
    split; [apply set_val_calls|].
    split; [apply set_val_synced|].
    intros Hs k' Hk. rewrite set_val_attribute.
    destruct (parameter_eq_dec k' k); [contradiction|].
    symmetry. apply Hs.
Qed.

Lemma set_val_effect_witness :
  attribute_of Thickness (set_val Thickness 2000 (init 632.8 1 1000 30 1 4)) =
    2000 /\
  wavelength (set_val Thickness 2000 (init 632.8 1 1000 30 1 4)) =
    val (slider_wavelength (init 632.8 1 1000 30 1 4)) /\
  wavelength (set_val Thickness 2000 (init 632.8 1 1000 30 1 4)) =
    wavelength (init 632.8 1 1000 30 1 4) /\
  calls (set_val Thickness 2000 (init 632.8 1 1000 30 1 4)) =
    calls (init 632.8 1 1000 30 1 4) ++
    redraw (set_val Thickness 2000 (init 632.8 1 1000 30 1 4)).
Proof.
  destruct (set_val_effect Thickness 2000 (init 632.8 1 1000 30 1 4))
    as (H1 & H2 & _ & _ & H5 & _ & H6).
  split; [exact H1|].
  split; [apply (H2 Wavelength); discriminate|].
  split; [|exact H5].
  apply (H6 (init_synced 632.8 1 1000 30 1 4
               ltac:(unfold in_slider_ranges; lra)) Wavelength).
  discriminate.
Defined.

Lemma app_redraw_neq (l : list canvas_call)
  (self : EqualInclinationInterference) :
  l ++ redraw self <> l.
Proof.
  intros H. apply (f_equal (@length canvas_call)) in H.
  rewrite length_app in H. cbn in H. lia.
Qed.

(** C8 as stated fails: built with thickness 50 (below the slider range), a
    change of the wavelength slider also moves the thickness from 50 to
    100; and on the default object a slider change appends a recomputed
    pattern to what the image received. *)
Lemma set_val_not_as_stated :
  thickness (init 632.8 1 50 30 1 2) = 50 /\
  thickness (set_val Wavelength 500 (init 632.8 1 50 30 1 2)) = 100 /\
  calls (set_val Thickness 2000 (init 632.8 1 1000 30 1 500)) <>
    calls (init 632.8 1 1000 30 1 500).
Proof.
  split; [reflexivity|]. split.
  - change (thickness (set_val Wavelength 500 (init 632.8 1 50 30 1 2)))
      with (value_in_bounds 100 5000 50).
    apply value_in_bounds_below. lra.
  - rewrite set_val_calls. apply app_redraw_neq.
Qed.

(** ** Reset *)

(** One slider reset: that slider is back at its initial value, the other
    sliders keep theirs, and the attributes still mirror the sliders. *)
Lemma slider_reset_spec (k : parameter)
  (self : EqualInclinationInterference) :
  synced self ->
  synced (slider_reset k self) /\
  val (slider_of k (slider_reset k self)) = valinit (slider_of k self) /\
  (forall k', valinit (slider_of k' (slider_reset k self)) =
              valinit (slider_of k' self)) /\
  (forall k', k' <> k ->
     val (slider_of k' (slider_reset k self)) = val (slider_of k' self)) /\
  intensity_max (slider_reset k self) = intensity_max self /\
  resolution (slider_reset k self) = resolution self.
Proof.
  intros Hs. unfold slider_reset.
  destruct (Req_dec_T (val (slider_of k self)) (valinit (slider_of k self)))
    as [E|E].
  - repeat split; auto.
  - split; [apply set_val_synced|]. split; [|split; [|split]].
    + destruct (set_val_slider k k (valinit (slider_of k self)) self) as [H _].
      rewrite H. destruct (parameter_eq_dec k k); [reflexivity|contradiction].
    + intros k'. apply set_val_slider.
    + intros k' Hk.
      destruct (set_val_slider k k' (valinit (slider_of k self)) self)
        as [H _].
      rewrite H. destruct (parameter_eq_dec k' k); [contradiction|reflexivity].
    + split; reflexivity.
Qed.

(** [reset]: every attribute takes the initial value of its slider. *)
Lemma reset_spec (self : EqualInclinationInterference) :
  synced self ->
  (forall k, attribute_of k (reset self) = valinit (slider_of k self)) /\
  intensity_max (reset self) = intensity_max self /\
  resolution (reset self) = resolution self.
Proof.
  intros H0. unfold reset.
  destruct (slider_reset_spec Wavelength self H0)
    as (H1 & V1 & I1 & O1 & M1 & R1).
  set (s1 := slider_reset Wavelength self) in *.
  destruct (slider_reset_spec Thickness s1 H1)
    as (H2 & V2 & I2 & O2 & M2 & R2).
  set (s2 := slider_reset Thickness s1) in *.
  destruct (slider_reset_spec RefractiveIndex s2 H2)
    as (H3 & V3 & I3 & O3 & M3 & R3).
  set (s3 := slider_reset RefractiveIndex s2) in *.
  destruct (slider_reset_spec AngleRange s3 H3)
    as (H4 & V4 & I4 & O4 & M4 & R4).
  set (s4 := slider_reset AngleRange s3) in *.
  split; [|split; congruence].
  intros k. rewrite (H4 k).
  at_each_parameter I1. at_each_parameter I2. at_each_parameter I3.
  assert (D1 : forall k', k' <> Wavelength ->
            val (slider_of k' s1) = val (slider_of k' self)) by exact O1.
  destruct k.
  - rewrite O4, O3, O2 by discriminate. exact V1.
  - rewrite O4, O3 by discriminate. rewrite V2. congruence.
  - rewrite O4 by discriminate. rewrite V3. congruence.
  - rewrite V4. congruence.
Qed.

Lemma init_invariant (w n d a imax : R) (res : nat) :
  in_slider_ranges w n d a ->
  session_invariant w n d a imax res (init w n d a imax res).
Proof.
  intros H. split; [now apply init_synced|].
  destruct H as (Hw & Hn & Hd & Ha).
  cbn. rewrite !value_in_bounds_inside by assumption. repeat split.
Qed.

Lemma set_val_invariant (w n d a imax : R) (res : nat) (k : parameter)
  (v : R) (self : EqualInclinationInterference) :
  session_invariant w n d a imax res self ->
  session_invariant w n d a imax res (set_val k v self).
Proof.
  intros (_ & Hw & Hn & Hd & Ha & Hi & Hr).
  split; [apply set_val_synced|].
  destruct (set_val_slider k Wavelength v self) as [_ Ew].
  destruct (set_val_slider k RefractiveIndex v self) as [_ En].
  destruct (set_val_slider k Thickness v self) as [_ Ed].
  destruct (set_val_slider k AngleRange v self) as [_ Ea].
  cbn [slider_of] in Ew, En, Ed, Ea.
  repeat split; try congruence; assumption.
Qed.

Lemma set_all_invariant (w n d a imax : R) (res : nat)
  (evs : list (parameter * R)) (self : EqualInclinationInterference) :
  session_invariant w n d a imax res self ->
  session_invariant w n d a imax res (set_all evs self).
Proof.
  revert self. unfold set_all.
  induction evs as [|[k v] evs IH]; intros self H; cbn [fold_left fst snd].
  - exact H.
  - apply IH. now apply set_val_invariant.
Qed.

(** C6, as the program has it.  When the four construction-time values lie
    inside the ranges of their sliders, [reset] after any sequence of
    slider changes restores the four interactive parameters to their
    construction-time values, and [_calculate_pattern] then returns the
    array it returned right after construction. *)
Theorem reset_restores (w n d a imax : R) (res : nat)
  (evs : list (parameter * R)) :
  in_slider_ranges w n d a ->
  wavelength (reset (set_all evs (init w n d a imax res))) = w /\
  refractive_index (reset (set_all evs (init w n d a imax res))) = n /\
  thickness (reset (set_all evs (init w n d a imax res))) = d /\
  incidence_angle_range (reset (set_all evs (init w n d a imax res))) = a /\
  _calculate_pattern (reset (set_all evs (init w n d a imax res))) =
    _calculate_pattern (init w n d a imax res).
Proof.
  intros Hin.
  pose proof (set_all_invariant w n d a imax res evs _
                (init_invariant w n d a imax res Hin))
    as (Hs & Hw & Hn & Hd & Ha & Hi & Hr).
  destruct (reset_spec _ Hs) as (Hk & Hi' & Hr').
  pose proof (Hk Wavelength) as Kw. pose proof (Hk RefractiveIndex) as Kn.
  pose proof (Hk Thickness) as Kd. pose proof (Hk AngleRange) as Ka.
  cbn [attribute_of slider_of] in Kw, Kn, Kd, Ka.
  assert (Ew : wavelength (reset (set_all evs (init w n d a imax res))) = w)
    by congruence.
  assert (En : refractive_index (reset (set_all evs (init w n d a imax res)))
               = n) by congruence.
  assert (Ed : thickness (reset (set_all evs (init w n d a imax res))) = d)
    by congruence.
  assert (Ea : incidence_angle_range
                 (reset (set_all evs (init w n d a imax res))) = a)
    by congruence.
  repeat split; try assumption.
  apply calculate_pattern_ext; cbn [init wavelength refractive_index thickness
    incidence_angle_range intensity_max resolution]; congruence.
Qed.

Lemma reset_restores_witness :
  wavelength
    (reset (set_all [(Thickness, 2000); (Wavelength, 500)]
              (init 632.8 1 1000 30 1 4))) = 632.8 /\
  thickness
    (reset (set_all [(Thickness, 2000); (Wavelength, 500)]
              (init 632.8 1 1000 30 1 4))) = 1000 /\
  _calculate_pattern
    (reset (set_all [(Thickness, 2000); (Wavelength, 500)]
              (init 632.8 1 1000 30 1 4))) =
  _calculate_pattern (init 632.8 1 1000 30 1 4).
Proof.
  destruct (reset_restores 632.8 1 1000 30 1 4
              [(Thickness, 2000); (Wavelength, 500)])
    as (Hw & _ & Hd & _ & Hf).
  - unfold in_slider_ranges. lra.
  - split; [exact Hw|]. split; [exact Hd | exact Hf].
Defined.

(** C6 as stated fails: built with thickness 50, below the range of its
    slider, the object has thickness 100 after one change of the wavelength
    slider followed by [reset]. *)
Lemma reset_not_as_stated :
  thickness (init 632.8 1 50 30 1 2) = 50 /\
  thickness
    (reset (set_all [(Wavelength, 500)] (init 632.8 1 50 30 1 2))) = 100.
Proof.
  split; [reflexivity|].
  destruct (reset_spec (set_all [(Wavelength, 500)] (init 632.8 1 50 30 1 2)))
    as (Hk & _ & _).
  - apply set_val_synced.
  - pose proof (Hk Thickness) as Hd. cbn [attribute_of] in Hd. rewrite Hd.
    change (value_in_bounds 100 5000 50 = 100).
    apply value_in_bounds_below. lra.
Qed.

(** ** Further facts about the field *)

Lemma intensity_at_swap (self : EqualInclinationInterference) (x y : R) :
  intensity_at self x y = intensity_at self y x.
Proof. unfold intensity_at, phase_at. now rewrite (Rplus_comm (x ^ 2)). Qed.

(** X1.  The array returned by [_calculate_pattern] is symmetric: entry
    [(i, j)] equals entry [(j, i)], because both axes use the same
    samples. *)
Theorem calculate_pattern_transpose
  (self : EqualInclinationInterference) (i j : nat) :
  (i < resolution self)%nat -> (j < resolution self)%nat ->
  nth j (nth i (_calculate_pattern self) []) 0 =
  nth i (nth j (_calculate_pattern self) []) 0.
Proof.
  intros Hi Hj. rewrite !calculate_pattern_nth by assumption.
  apply intensity_at_swap.
Qed.

Lemma calculate_pattern_transpose_witness :
  nth 2 (nth 0 (_calculate_pattern (init 632.8 1 1000 30 1 5)) []) 0 =
  nth 0 (nth 2 (_calculate_pattern (init 632.8 1 1000 30 1 5)) []) 0.
Proof.
  apply (calculate_pattern_transpose (init 632.8 1 1000 30 1 5) 0 2);
    simpl; lia.
Defined.

(** X2.  Degenerate resolutions: with resolution 0 the array is empty, and
    with resolution 1 it has the single entry computed at the corner
    [(-a, -a)] of the range, not at its centre. *)
Theorem calculate_pattern_small_resolution
  (self : EqualInclinationInterference) :
  (resolution self = 0%nat -> _calculate_pattern self = []) /\
  (resolution self = 1%nat ->
   _calculate_pattern self =
   [[intensity_at self (- incidence_angle_range self)
       (- incidence_angle_range self)]]).
Proof.
  split; intros H; rewrite calculate_pattern_pointwise, H; cbn [seq map].
  - reflexivity.
  - replace (spec_coord (incidence_angle_range self) 1 0)
      with (- incidence_angle_range self)
      by (unfold spec_coord; simpl; ring).
    reflexivity.
Qed.

Lemma calculate_pattern_small_resolution_witness :
  _calculate_pattern (init 632.8 1 1000 30 1 0) = [] /\
  _calculate_pattern (init 632.8 1 1000 30 1 1) =
  [[intensity_at (init 632.8 1 1000 30 1 1) (- 30) (- 30)]].
Proof.
  split.
  - apply (calculate_pattern_small_resolution (init 632.8 1 1000 30 1 0)).
    reflexivity.
  - apply (calculate_pattern_small_resolution (init 632.8 1 1000 30 1 1)).
    reflexivity.
Defined.

Lemma spec_coord_range (a : R) (res j : nat) :
  0 <= a -> (j < res)%nat -> - a <= spec_coord a res j <= a.
Proof.
  intros Ha Hj. unfold spec_coord.
  destruct res as [|[|m]]; [lia| |].
  - replace j with 0%nat by lia. simpl. lra.
  - replace (S (S m) - 1)%nat with (S m) by lia.
    assert (HD : 0 < INR (S m)) by (apply lt_0_INR; lia).
    assert (Hj0 : 0 <= INR j) by apply pos_INR.
    assert (Hj1 : INR j <= INR (S m)) by (apply le_INR; lia).
    replace (INR j * (2 * a / INR (S m)))
      with (2 * a * (INR j / INR (S m))) by (field; lra).
    assert (Hinv : 0 < / INR (S m)) by now apply Rinv_0_lt_compat.
    assert (Ht : 0 <= INR j / INR (S m) <= 1).
    { unfold Rdiv. split.
      - apply Rmult_le_pos; lra.
      - apply Rmult_le_reg_r with (INR (S m)); [assumption|].
        rewrite Rmult_assoc, Rinv_l by lra. lra. }
    split; nra.
Qed.

(** X3.  The samples of an axis: with two or more samples the first is
    exactly [-a] and the last exactly [a]; and for a non-negative range
    every sample lies in [[-a, a]]. *)
Theorem axis_samples_span (self : EqualInclinationInterference) :
  (forall m : nat, resolution self = S (S m) ->
     nth 0 (axis_samples self) 0 = - incidence_angle_range self /\
     nth (S m) (axis_samples self) 0 = incidence_angle_range self) /\
  (0 <= incidence_angle_range self ->
   Forall (fun x => - incidence_angle_range self <= x <=
                    incidence_angle_range self) (axis_samples self)).
Proof.
  unfold axis_samples. rewrite linspace_spec_coord. split.
  - intros m Hm. rewrite Hm.
    rewrite !map_seq_nth by lia.
    destruct (spec_coord_evenly_spaced (incidence_angle_range self) m)
      as (H0 & H1 & _).
    split; assumption.
  - intros Ha. apply Forall_forall. intros x Hx.
    apply in_map_iff in Hx. destruct Hx as [j [<- Hj]].
    apply in_seq in Hj. apply spec_coord_range; [assumption|lia].
Qed.

Lemma axis_samples_span_witness :
  (nth 0 (axis_samples (init 632.8 1 1000 30 1 500)) 0 = - 30 /\
   nth 499 (axis_samples (init 632.8 1 1000 30 1 500)) 0 = 30) /\
  Forall (fun x => - 30 <= x <= 30)
    (axis_samples (init 632.8 1 1000 30 1 500)).
Proof.
  destruct (axis_samples_span (init 632.8 1 1000 30 1 500)) as [H1 H2].
  split.
  - apply (H1 498%nat). reflexivity.
  - apply H2. simpl. lra.
Defined.

(** Inside the range of the angle slider every sample pair is less than a
    right angle away from the normal. *)
Lemma cos_radians_positive (a x y : R) :
  0 <= a <= 60 -> - a <= x <= a -> - a <= y <= a ->
  0 < cos (np.radians (sqrt (x ^ 2 + y ^ 2))) <= 1.
Proof.
  intros Ha Hx Hy.
  split; [|apply COS_bound].
  assert (Hs : 0 <= x ^ 2 + y ^ 2 < 90 * 90) by (split; nra).
  assert (Ht : sqrt (x ^ 2 + y ^ 2) < 90).
  { rewrite <- (sqrt_square 90) by lra. apply sqrt_lt_1; lra. }
  assert (H0 : 0 <= sqrt (x ^ 2 + y ^ 2)) by apply sqrt_pos.
  pose proof PI_RGT_0 as HPI.
  apply cos_gt_0; unfold np.radians; nra.
Qed.

(** X4.  With a positive wavelength, non-negative index and thickness, and
    an angle range between 0 and 60 degrees (the top of its slider), the
    phase of every entry is non-negative and at most the phase at the
    centre, [4 pi n d / lambda]. *)
Theorem phase_largest_at_center
  (self : EqualInclinationInterference) (i j : nat) :
  0 < wavelength self -> 0 <= refractive_index self ->
  0 <= thickness self -> 0 <= incidence_angle_range self <= 60 ->
  (i < resolution self)%nat -> (j < resolution self)%nat ->
  0 <= phase_at self
         (spec_coord (incidence_angle_range self) (resolution self) j)
         (spec_coord (incidence_angle_range self) (resolution self) i)
    <= 4 * PI * refractive_index self * thickness self / wavelength self.
Proof.
  intros Hw Hn Hd Ha Hi Hj.
  pose proof (spec_coord_range _ _ _ (proj1 Ha) Hi) as Hy.
  pose proof (spec_coord_range _ _ _ (proj1 Ha) Hj) as Hx.
  pose proof (cos_radians_positive _ _ _ Ha Hx Hy) as [Hc0 Hc1].
  unfold phase_at.
  set (c := cos _) in *.
  pose proof PI_RGT_0 as HPI.
  assert (Hk : 0 <= 4 * PI * refractive_index self * thickness self)
    by (apply Rmult_le_pos; [apply Rmult_le_pos|]; nra).
  assert (Hinv : 0 < / wavelength self) by now apply Rinv_0_lt_compat.
  unfold Rdiv. split.
  - apply Rmult_le_pos; [apply Rmult_le_pos|]; lra.
  - apply Rmult_le_compat_r; [lra|]. nra.
Qed.

Lemma phase_largest_at_center_witness :
  0 <= phase_at (init 632.8 1 1000 30 1 5)
         (spec_coord 30 5 1) (spec_coord 30 5 0)
    <= 4 * PI * 1 * 1000 / 632.8.
Proof.
  apply (phase_largest_at_center (init 632.8 1 1000 30 1 5) 0 1);
    simpl; try lra; lia.
Defined.

(** ** Further facts about the animation *)

(** X8.  The bounds of the sweep are reached: when the number of frames is
    a multiple of 4, say [4 * k] with [k] positive, frame [k] sets the
    thickness to 5000 and frame [3 * k] to 100. *)
Theorem frame_thickness_extremes (k : nat) :
  k <> 0%nat ->
  frame_thickness (4 * k) k = Some 5000 /\
  frame_thickness (4 * k) (3 * k) = Some 100.
Proof.
  intros Hk. unfold frame_thickness.
  destruct (Nat.eqb_spec (4 * k) 0) as [E|_]; [lia|].
  assert (HD : INR k <> 0) by (apply not_0_INR; exact Hk).
  rewrite !mult_INR.
  replace (INR 4) with 4 by (simpl; ring).
  replace (INR 3) with 3 by (simpl; ring).
  replace (INR k * 2 * PI / (4 * INR k)) with (PI / 2) by (field; exact HD).
  replace (3 * INR k * 2 * PI / (4 * INR k)) with (3 * (PI / 2))
    by (field; exact HD).
  rewrite sin_PI2, sin_3PI2.
  split; f_equal; lra.
Qed.

Lemma frame_thickness_extremes_witness :
  frame_thickness (4 * 15) 15 = Some 5000 /\
  frame_thickness (4 * 15) (3 * 15) = Some 100.
Proof. apply (frame_thickness_extremes 15). lia. Defined.


(** X9.  [update_frame] raises exactly when [frames] is 0.  Otherwise it
    leaves the scheduled thickness both in the attribute and in the
    thickness slider, a value inside the range of that slider; the other
    sliders, [intensity_max] and [resolution] are untouched, and the image
    receives one recomputed pattern. *)
Theorem update_frame_effect (frames frame : nat)
  (self : EqualInclinationInterference) :
  (update_frame frames frame self = None <-> frames = 0%nat) /\
  (forall self', update_frame frames frame self = Some self' ->
     thickness self' = spec_thickness frames frame /\
     val (slider_thickness self') = spec_thickness frames frame /\
     100 <= thickness self' <= 5000 /\
     slider_wavelength self' = slider_wavelength self /\
     slider_refractive self' = slider_refractive self /\
     slider_angle self' = slider_angle self /\
     intensity_max self' = intensity_max self /\
     resolution self' = resolution self /\
     calls self' = calls self ++ redraw self').
Proof.
  unfold update_frame, frame_thickness.
  destruct (Nat.eqb_spec frames 0) as [E|E].
  - split; [split; [intros _; exact E | reflexivity]|].
    intros self' H; discriminate H.
  - split; [split; [discriminate | intros H; contradiction]|].
    assert (Hs : 100 + 4900 * (0.5 + 0.5 * sin (INR frame * 2 * PI /
                                                  INR frames)) =
                 spec_thickness frames frame).
    { unfold spec_thickness.
      replace (INR frame * 2 * PI / INR frames)
        with (2 * PI * INR frame / INR frames) by (unfold Rdiv; ring).
      reflexivity. }
    rewrite Hs.
    intros self' H; injection H as <-.
    split; [reflexivity|]. split; [reflexivity|].
    split; [apply spec_thickness_range|].
    repeat split.
Qed.

Lemma update_frame_effect_witness :
  (update_frame 0 3 (init 632.8 1 1000 30 1 4) = None <-> 0%nat = 0%nat) /\
  exists self',
    update_frame 30 7 (init 632.8 1 1000 30 1 4) = Some self' /\
    thickness self' = spec_thickness 30 7 /\
    100 <= thickness self' <= 5000.
Proof.
  split.
  - apply (update_frame_effect 0 3 (init 632.8 1 1000 30 1 4)).
  - destruct (update_frame_thickness 30 7 (init 632.8 1 1000 30 1 4))
      as [self' [H _]]; [lia|].
    exists self'. split; [exact H|].
    destruct (update_frame_effect 30 7 (init 632.8 1 1000 30 1 4))
      as [_ Hok].
    destruct (Hok self' H) as (H1 & _ & H3 & _).
    split; [exact H1 | exact H3].
Defined.

(** ** Further facts about construction, slider changes and reset *)

Lemma value_in_bounds_fixed (lo hi v : R) :
  lo <= hi -> value_in_bounds lo hi v = v -> lo <= v <= hi.
Proof.
  intros Hlh. unfold value_in_bounds.
  destruct (Rle_dec v lo); [lra|].
  destruct (Rle_dec hi v); lra.
Qed.

(** X10.  Right after [__init__] the attributes mirror the sliders exactly
    when the four interactive arguments lie inside the slider ranges
    (400..800, 1..2, 100..5000, 5..60); outside, a slider holds the
    clipped value and the attribute the raw one. *)
Theorem init_synced_iff (w n d a imax : R) (res : nat) :
  synced (init w n d a imax res) <-> in_slider_ranges w n d a.
Proof.
  split; [|apply init_synced].
  intros H.
  pose proof (H Wavelength) as Hw. pose proof (H RefractiveIndex) as Hn.
  pose proof (H Thickness) as Hd. pose proof (H AngleRange) as Ha.
  cbn in Hw, Hn, Hd, Ha. symmetry in Hw, Hn, Hd, Ha.
  apply value_in_bounds_fixed in Hw; [|lra].
  apply value_in_bounds_fixed in Hn; [|lra].
  apply value_in_bounds_fixed in Hd; [|lra].
  apply value_in_bounds_fixed in Ha; [|lra].
  unfold in_slider_ranges. repeat split; lra.
Qed.

Lemma slider_reset_sliders (k : parameter)
  (self : EqualInclinationInterference) :
  val (slider_of k (slider_reset k self)) = valinit (slider_of k self) /\
  (forall k', k' <> k ->
     slider_of k' (slider_reset k self) = slider_of k' self) /\
  (forall k',
     valinit (slider_of k' (slider_reset k self)) =
       valinit (slider_of k' self) /\
     valmin (slider_of k' (slider_reset k self)) =
       valmin (slider_of k' self) /\
     valmax (slider_of k' (slider_reset k self)) =
       valmax (slider_of k' self)).
Proof.
  unfold slider_reset.
  destruct (Req_dec_T (val (slider_of k self)) (valinit (slider_of k self)))
    as [E|E].
  - repeat split; auto.
  - split; [destruct k; reflexivity|]. split.
    + intros k' Hk. destruct k, k'; try reflexivity; contradiction.
    + intros k'. destruct k, k'; repeat split.
Qed.

Lemma reset_slider_values (self : EqualInclinationInterference)
  (k : parameter) :
  val (slider_of k (reset self)) = valinit (slider_of k self) /\
  valinit (slider_of k (reset self)) = valinit (slider_of k self) /\
  valmin (slider_of k (reset self)) = valmin (slider_of k self) /\
  valmax (slider_of k (reset self)) = valmax (slider_of k self).
Proof.
  unfold reset.
  destruct (slider_reset_sliders Wavelength self) as (V1 & O1 & I1).
  set (s1 := slider_reset Wavelength self) in *.
  destruct (slider_reset_sliders Thickness s1) as (V2 & O2 & I2).
  set (s2 := slider_reset Thickness s1) in *.
  destruct (slider_reset_sliders RefractiveIndex s2) as (V3 & O3 & I3).
  set (s3 := slider_reset RefractiveIndex s2) in *.
  destruct (slider_reset_sliders AngleRange s3) as (V4 & O4 & I4).
  set (s4 := slider_reset AngleRange s3) in *.
  destruct (I1 k) as (A1 & B1 & C1). destruct (I2 k) as (A2 & B2 & C2).
  destruct (I3 k) as (A3 & B3 & C3). destruct (I4 k) as (A4 & B4 & C4).
  split; [|repeat split; congruence].
  destruct (I1 Thickness) as (T1 & _). destruct (I1 RefractiveIndex) as (N1 & _).
  destruct (I1 AngleRange) as (G1 & _).
  destruct (I2 RefractiveIndex) as (N2 & _). destruct (I2 AngleRange) as (G2 & _).
  destruct (I3 AngleRange) as (G3 & _).
  destruct k.
  - rewrite O4, O3, O2 by discriminate. exact V1.
  - rewrite O4, O3 by discriminate. rewrite V2. exact T1.
  - rewrite O4 by discriminate. rewrite V3. congruence.
  - rewrite V4. congruence.
Qed.

(** X11.  After [reset], whatever the state before, every slider is at its
    initial value and keeps its initial value and its bounds. *)
Theorem reset_sliders (self : EqualInclinationInterference) (k : parameter) :
  val (slider_of k (reset self)) = valinit (slider_of k self) /\
  valinit (slider_of k (reset self)) = valinit (slider_of k self) /\
  valmin (slider_of k (reset self)) = valmin (slider_of k self) /\
  valmax (slider_of k (reset self)) = valmax (slider_of k self).
Proof. exact (reset_slider_values self k). Qed.

Lemma slider_reset_unmoved (k : parameter)
  (self : EqualInclinationInterference) :
  val (slider_of k self) = valinit (slider_of k self) ->
  slider_reset k self = self.
Proof.
  intros H. unfold slider_reset.
  destruct (Req_dec_T _ _); [reflexivity|contradiction].
Qed.

Lemma reset_unmoved (self : EqualInclinationInterference) :
  (forall k, val (slider_of k self) = valinit (slider_of k self)) ->
  reset self = self.
Proof.
  intros H. unfold reset.
  rewrite (slider_reset_unmoved Wavelength) by apply H.
  rewrite (slider_reset_unmoved Thickness) by apply H.
  rewrite (slider_reset_unmoved RefractiveIndex) by apply H.
  now rewrite (slider_reset_unmoved AngleRange) by apply H.
Qed.

(** X12.  [reset] right after construction changes nothing, for every
    argument tuple: no attribute is touched and nothing is redrawn, even
    when an attribute lies outside the range of its slider. *)
Theorem reset_after_init (w n d a imax : R) (res : nat) :
  reset (init w n d a imax res) = init w n d a imax res.
Proof. apply reset_unmoved. intros k. destruct k; reflexivity. Qed.

(** X13.  [reset] is idempotent: a second click on the button changes
    nothing and redraws nothing. *)
Theorem reset_idempotent (self : EqualInclinationInterference) :
  reset (reset self) = reset self.
Proof.
  apply reset_unmoved. intros k.
  destruct (reset_slider_values self k) as (Hv & Hi & _). congruence.
Qed.

Lemma moved_slider_reset_calls (k : parameter)
  (self : EqualInclinationInterference) :
  length (calls (slider_reset k self)) =
  (length (calls self) + 3 * moved (slider_of k self))%nat.
Proof.
  unfold slider_reset, moved.
  destruct (Req_dec_T _ _); [lia|].
  rewrite set_val_calls, length_app. cbn [redraw length]. lia.
Qed.

(** X14.  [reset] recomputes and redraws the pattern once for every slider
    that was away from its initial value, up to four times: the image
    receives three calls ([set_data], [set_extent], [draw_idle]) per moved
    slider and none for the others. *)
Theorem reset_redraw_count (self : EqualInclinationInterference) :
  length (calls (reset self)) =
  (length (calls self) + 3 * moved_sliders self)%nat.
Proof.
  unfold reset, moved_sliders.
  set (s1 := slider_reset Wavelength self).
  set (s2 := slider_reset Thickness s1).
  set (s3 := slider_reset RefractiveIndex s2).
  pose proof (moved_slider_reset_calls Wavelength self) as L1.
  pose proof (moved_slider_reset_calls Thickness s1) as L2.
  pose proof (moved_slider_reset_calls RefractiveIndex s2) as L3.
  pose proof (moved_slider_reset_calls AngleRange s3) as L4.
  destruct (slider_reset_sliders Wavelength self) as (_ & O1 & _).
  destruct (slider_reset_sliders Thickness s1) as (_ & O2 & _).
  destruct (slider_reset_sliders RefractiveIndex s2) as (_ & O3 & _).
  fold s1 in L1, O1. fold s2 in L2, O2. fold s3 in L3, O3.
  rewrite (O3 AngleRange), (O2 AngleRange), (O1 AngleRange) in L4
    by discriminate.
  rewrite (O2 RefractiveIndex), (O1 RefractiveIndex) in L3 by discriminate.
  rewrite (O1 Thickness) in L2 by discriminate.
  cbn [slider_of] in L1, L2, L3, L4. lia.
Qed.

(** X15.  Changes of two different sliders commute, and of two changes of
    the same slider the later one wins: in both cases the resulting
    objects agree on every slider and attribute and give the same pattern
    (only the calls the image received differ). *)
Theorem set_val_compose (k1 k2 : parameter) (v1 v2 : R)
  (self : EqualInclinationInterference) :
  (k1 <> k2 ->
   (forall k, slider_of k (set_val k1 v1 (set_val k2 v2 self)) =
              slider_of k (set_val k2 v2 (set_val k1 v1 self))) /\
   (forall k, attribute_of k (set_val k1 v1 (set_val k2 v2 self)) =
              attribute_of k (set_val k2 v2 (set_val k1 v1 self))) /\
   _calculate_pattern (set_val k1 v1 (set_val k2 v2 self)) =
   _calculate_pattern (set_val k2 v2 (set_val k1 v1 self))) /\
  ((forall k, slider_of k (set_val k1 v2 (set_val k1 v1 self)) =
              slider_of k (set_val k1 v2 self)) /\
   (forall k, attribute_of k (set_val k1 v2 (set_val k1 v1 self)) =
              attribute_of k (set_val k1 v2 self)) /\
   _calculate_pattern (set_val k1 v2 (set_val k1 v1 self)) =
   _calculate_pattern (set_val k1 v2 self)).
Proof.
  split.
  - intros Hk. split; [|split].
    + intros k. destruct k1, k2, k; try reflexivity; contradiction.
    + intros k. destruct k1, k2, k; try reflexivity; contradiction.
    + apply calculate_pattern_ext;
        destruct k1, k2; try reflexivity; contradiction.
  - split; [|split].
    + intros k. destruct k1, k; reflexivity.
    + intros k. destruct k1, k; reflexivity.
    + apply calculate_pattern_ext; destruct k1; reflexivity.
Qed.

Lemma set_val_compose_witness :
  _calculate_pattern
    (set_val Wavelength 500 (set_val Thickness 2000
                               (init 632.8 1 1000 30 1 4))) =
  _calculate_pattern
    (set_val Thickness 2000 (set_val Wavelength 500
                               (init 632.8 1 1000 30 1 4))).
Proof.
  destruct (set_val_compose Wavelength Thickness 500 2000
              (init 632.8 1 1000 30 1 4)) as [H _].
  destruct H as (_ & _ & H); [discriminate | exact H].
Defined.

(** ** Sessions *)

Lemma update_image_current (self : EqualInclinationInterference) :
  image_current (update self).
Proof.
  unfold image_current, last_data, last_extent.
  rewrite update_calls, !fold_left_app. split; reflexivity.
Qed.

Lemma init_image_current (w n d a imax : R) (res : nat) :
  image_current (init w n d a imax res).
Proof.
  unfold image_current, last_data, last_extent. cbn [init calls fold_left].
  split; reflexivity.
Qed.

Lemma slider_reset_image_current (k : parameter)
  (self : EqualInclinationInterference) :
  image_current self -> image_current (slider_reset k self).
Proof.
  intros H. unfold slider_reset.
  destruct (Req_dec_T _ _); [exact H | apply update_image_current].
Qed.

Lemma step_image_current (e : event)
  (self self' : EqualInclinationInterference) :
  image_current self -> step e self = Some self' -> image_current self'.
Proof.
  intros H Hs. destruct e as [k v| |frames frame]; cbn [step] in Hs.
  - injection Hs as <-. apply update_image_current.
  - injection Hs as <-. unfold reset.
    now do 4 apply slider_reset_image_current.
  - unfold update_frame in Hs.
    destruct (frame_thickness frames frame); [|discriminate].
    injection Hs as <-. apply update_image_current.
Qed.

(** X16.  Through any session (slider changes, resets, animation frames)
    started by [__init__], the image always holds the pattern and the
    extent of the current attributes: the last array it received is
    [_calculate_pattern] of the object as it is now. *)
Theorem session_image_current (w n d a imax : R) (res : nat)
  (evs : list event) (self : EqualInclinationInterference) :
  run evs (init w n d a imax res) = Some self -> image_current self.
Proof.
  pose proof (init_image_current w n d a imax res) as H0.
  revert H0. generalize (init w n d a imax res).
  induction evs as [|e evs IH]; intros s0 H0 Hrun; cbn [run] in Hrun.
  - injection Hrun as <-. exact H0.
  - destruct (step e s0) as [s1|] eqn:Hs; [|discriminate].
    apply (IH s1); [|exact Hrun].
    exact (step_image_current e s0 s1 H0 Hs).
Qed.

Lemma session_image_current_witness :
  image_current
    (reset (set_val Thickness 2000 (init 632.8 1 1000 30 1 4))).
Proof.
  apply (session_image_current 632.8 1 1000 30 1 4
           [SetVal Thickness 2000; Reset]).
  reflexivity.
Defined.

Lemma slider_reset_fixed (k : parameter)
  (self : EqualInclinationInterference) :
  intensity_max (slider_reset k self) = intensity_max self /\
  resolution (slider_reset k self) = resolution self.
Proof.
  unfold slider_reset. destruct (Req_dec_T _ _); split; reflexivity.
Qed.

Lemma reset_spec_fixed (self : EqualInclinationInterference) :
  intensity_max (reset self) = intensity_max self /\
  resolution (reset self) = resolution self.
Proof.
  unfold reset.
  destruct (slider_reset_fixed Wavelength self) as [A1 B1].
  destruct (slider_reset_fixed Thickness (slider_reset Wavelength self))
    as [A2 B2].
  destruct (slider_reset_fixed RefractiveIndex
              (slider_reset Thickness (slider_reset Wavelength self)))
    as [A3 B3].
  destruct (slider_reset_fixed AngleRange
              (slider_reset RefractiveIndex
                 (slider_reset Thickness (slider_reset Wavelength self))))
    as [A4 B4].
  split; congruence.
Qed.

Lemma step_fixed (e : event) (self self' : EqualInclinationInterference) :
  step e self = Some self' ->
  intensity_max self' = intensity_max self /\
  resolution self' = resolution self /\
  forall k,
    valinit (slider_of k self') = valinit (slider_of k self) /\
    valmin (slider_of k self') = valmin (slider_of k self) /\
    valmax (slider_of k self') = valmax (slider_of k self).
Proof.
  intros Hs. destruct e as [k v| |frames frame]; cbn [step] in Hs.
  - injection Hs as <-. repeat split; destruct k, k0; reflexivity.
  - injection Hs as <-.
    destruct (reset_spec_fixed self) as [Hi Hr].
    split; [exact Hi|]. split; [exact Hr|].
    intros k. destruct (reset_slider_values self k) as (_ & H1 & H2 & H3).
    repeat split; assumption.
  - unfold update_frame in Hs.
    destruct (frame_thickness frames frame); [|discriminate].
    injection Hs as <-. repeat split; destruct k; reflexivity.
Qed.

(** X17.  No event of a session changes [intensity_max], [resolution], or
    the initial value and the bounds of any slider; so the pattern keeps
    its shape, [resolution] by [resolution], throughout. *)
Theorem session_fixed (evs : list event)
  (self self' : EqualInclinationInterference) :
  run evs self = Some self' ->
  intensity_max self' = intensity_max self /\
  resolution self' = resolution self /\
  (forall k,
     valinit (slider_of k self') = valinit (slider_of k self) /\
     valmin (slider_of k self') = valmin (slider_of k self) /\
     valmax (slider_of k self') = valmax (slider_of k self)) /\
  np.shape (_calculate_pattern self') (resolution self) (resolution self).
Proof.
  intros Hrun.
  assert (H : intensity_max self' = intensity_max self /\
              resolution self' = resolution self /\
              forall k,
                valinit (slider_of k self') = valinit (slider_of k self) /\
                valmin (slider_of k self') = valmin (slider_of k self) /\
                valmax (slider_of k self') = valmax (slider_of k self)).
  { revert self Hrun.
    induction evs as [|e evs IH]; intros s0 Hrun; cbn [run] in Hrun.
    - injection Hrun as <-. repeat split.
    - destruct (step e s0) as [s1|] eqn:Hs; [|discriminate].
      destruct (IH s1 Hrun) as (Hi & Hr & Hk).
      destruct (step_fixed e s0 s1 Hs) as (Hi' & Hr' & Hk').
      split; [congruence|]. split; [congruence|].
      intros k. destruct (Hk k) as (A & B & C).
      destruct (Hk' k) as (A' & B' & C').
      repeat split; congruence. }
  destruct H as (Hi & Hr & Hk).
  repeat split; try assumption; try apply Hk.
  - rewrite <- Hr. apply calculate_pattern_shape.
  - rewrite <- Hr. apply calculate_pattern_shape.
Qed.

Lemma session_fixed_witness :
  intensity_max
    (reset (set_val Thickness 2000 (init 632.8 1 1000 30 1 4))) = 1 /\
  resolution
    (reset (set_val Thickness 2000 (init 632.8 1 1000 30 1 4))) = 4%nat /\
  np.shape
    (_calculate_pattern
       (reset (set_val Thickness 2000 (init 632.8 1 1000 30 1 4)))) 4 4.
Proof.
  destruct (session_fixed [SetVal Thickness 2000; Reset]
              (init 632.8 1 1000 30 1 4)
              (reset (set_val Thickness 2000 (init 632.8 1 1000 30 1 4))))
    as (H1 & H2 & _ & H4); [reflexivity|].
  split; [exact H1|]. split; [exact H2 | exact H4].
Defined.

